(** * IHUB_Processor: the message scanner and the field extractor of [app.py]

    A shallow embedding of [_extract_messages],
    [process_xml_and_populate_xl_sheet] and the scanning loop of
    [process_excel], with the properties of the specification stated and
    proved over it.

    Conventions of the model.
    - Text is [string]; the character classes ([str.isspace], [str.isdigit],
      the regular-expression classes [\s], [\w], [\d]) are those of Python on
      the ASCII range, and the UTF-8 length of a text is its length.  Code
      points above 127 (among them the byte-order mark U+FEFF) lie outside
      the model.
    - [re] patterns are values of type [regex], run by a backtracking matcher
      that tries alternatives in the order Python's engine does.
    - The lxml tree is the inductive type [node]; the recovering parser
      [etree.fromstring] is a parameter of the development, and XPath queries
      are the traversals [xpath_walk] and [child_elems].
    - The output worksheet is a finite map from (row, column) to text; a cell
      assignment is an insertion.
    - Row and column numbers and the cursors [i], [j] are [nat]; byte counts
      are [N]. *)

From Stdlib Require Import Ascii NArith DecimalString DecimalN DecimalFacts.
From Stdlib Require String.
From stdpp Require Import gmap list strings.

#[local] Set Warnings "-register-all".


(** ** Characters and text *)

Module Text.

Definition code (c : ascii) : nat := nat_of_ascii c.

Definition between (lo hi : nat) (c : ascii) : bool :=
  (lo <=? code c) && (code c <=? hi).

(** [str.isspace] on ASCII: TAB, LF, VT, FF, CR, FS, GS, RS, US, SPACE. *)
Definition isspace (c : ascii) : bool :=
  between 9 13 c || between 28 32 c.

(** One character of [str.isdigit] / [\d]. *)
Definition isdigit_char (c : ascii) : bool := between 48 57 c.

Definition isupper_char (c : ascii) : bool := between 65 90 c.
Definition islower_char (c : ascii) : bool := between 97 122 c.

(** The class [\w]. *)
Definition isword (c : ascii) : bool :=
  isdigit_char c || isupper_char c || islower_char c || (code c =? 95).

Definition lower (c : ascii) : ascii :=
  if isupper_char c then ascii_of_nat (code c + 32) else c.

Definition eqb_char (icase : bool) (a b : ascii) : bool :=
  if icase then Ascii.eqb (lower a) (lower b) else Ascii.eqb a b.

(** [s.isdigit()]: non-empty and made of digits only. *)
Fixpoint all_digits (s : string) : bool :=
  match s with
  | EmptyString => true
  | String c s' => isdigit_char c && all_digits s'
  end.

Definition isdigit (s : string) : bool :=
  match s with
  | EmptyString => false
  | _ => all_digits s
  end.

Fixpoint lstrip (s : string) : string :=
  match s with
  | String c s' => if isspace c then lstrip s' else s
  | EmptyString => EmptyString
  end.

Fixpoint rstrip (s : string) : string :=
  match s with
  | String c s' =>
      match rstrip s' with
      | EmptyString => if isspace c then EmptyString else String c EmptyString
      | r => String c r
      end
  | EmptyString => EmptyString
  end.

(** [s.strip()] *)
Definition strip (s : string) : string := rstrip (lstrip s).

Fixpoint starts_with (p s : string) : bool :=
  match p, s with
  | EmptyString, _ => true
  | String a p', String b s' => Ascii.eqb a b && starts_with p' s'
  | String _ _, EmptyString => false
  end.

(** [p in s] *)
Fixpoint contains (p s : string) : bool :=
  starts_with p s ||
  match s with
  | String _ s' => contains p s'
  | EmptyString => false
  end.

(** [sep.join(parts)] *)
Definition join (sep : string) (parts : list string) : string :=
  String.concat sep parts.

(** [len(s.encode("utf-8"))] on ASCII text. *)
Definition utf8_len (s : string) : N := N.of_nat (String.length s).

(** [s.replace(BOM, empty)]: the byte-order mark U+FEFF is no character of the model, so
    nothing is removed. *)
Definition remove_bom (s : string) : string := s.

End Text.

(** ** Regular expressions *)

Module Re.

Inductive regex : Type :=
| Eps
| Chr (c : ascii)
| Cls (p : ascii -> bool)
| Star (p : ascii -> bool)
| LazyStar (p : ascii -> bool)
| Plus (p : ascii -> bool)
| Opt (r : regex)
| Seq (r1 r2 : regex)
| WordBoundary.

Fixpoint lit (s : string) : regex :=
  match s with
  | EmptyString => Eps
  | String c s' => Seq (Chr c) (lit s')
  end.

Fixpoint seq (rs : list regex) : regex :=
  match rs with
  | [] => Eps
  | r :: rs' => Seq r (seq rs')
  end.

(** A continuation receives the character before the current position and
    the rest of the input, and answers with what is left after the whole
    match. *)
Definition cont : Type := option ascii -> string -> option string.

Fixpoint star_greedy (p : ascii -> bool) (k : cont)
    (prev : option ascii) (s : string) : option string :=
  match s with
  | String c s' =>
      if p c then
        match star_greedy p k (Some c) s' with
        | Some r => Some r
        | None => k prev s
        end
      else k prev s
  | EmptyString => k prev s
  end.

Fixpoint star_lazy (p : ascii -> bool) (k : cont)
    (prev : option ascii) (s : string) : option string :=
  match k prev s with
  | Some r => Some r
  | None =>
      match s with
      | String c s' => if p c then star_lazy p k (Some c) s' else None
      | EmptyString => None
      end
  end.

Definition word_before (prev : option ascii) : bool :=
  match prev with Some c => Text.isword c | None => false end.

Definition word_after (s : string) : bool :=
  match s with String c _ => Text.isword c | EmptyString => false end.

Fixpoint rmatch (icase : bool) (r : regex) (k : cont)
    (prev : option ascii) (s : string) : option string :=
  match r with
  | Eps => k prev s
  | Chr c =>
      match s with
      | String x s' => if Text.eqb_char icase c x then k (Some x) s' else None
      | EmptyString => None
      end
  | Cls p =>
      match s with
      | String x s' => if p x then k (Some x) s' else None
      | EmptyString => None
      end
  | Star p => star_greedy p k prev s
  | LazyStar p => star_lazy p k prev s
  | Plus p =>
      match s with
      | String x s' => if p x then star_greedy p k (Some x) s' else None
      | EmptyString => None
      end
  | Opt r' =>
      match rmatch icase r' k prev s with
      | Some rest => Some rest
      | None => k prev s
      end
  | Seq r1 r2 => rmatch icase r1 (rmatch icase r2 k) prev s
  | WordBoundary =>
      if xorb (word_before prev) (word_after s) then k prev s else None
  end.

(** The first match that starts at the head of [s], as the number of
    characters it spans. *)
Definition match_here (icase : bool) (r : regex)
    (prev : option ascii) (s : string) : option nat :=
  match rmatch icase r (fun _ rest => Some rest) prev s with
  | Some rest => Some (String.length s - String.length rest)
  | None => None
  end.

(** [pattern.search(s) is not None] *)
Fixpoint search_from (icase : bool) (r : regex)
    (prev : option ascii) (s : string) : bool :=
  match match_here icase r prev s with
  | Some _ => true
  | None =>
      match s with
      | String c s' => search_from icase r (Some c) s'
      | EmptyString => false
      end
  end.

Definition search (icase : bool) (r : regex) (s : string) : bool :=
  search_from icase r None s.

(** [pattern.findall(s)] for a pattern whose whole match is its one group:
    the leftmost matches, none overlapping another.  [skip] counts the
    characters still covered by the match found last. *)
Fixpoint findall_from (icase : bool) (r : regex)
    (prev : option ascii) (skip : nat) (s : string) : list string :=
  match skip with
  | S skip' =>
      match s with
      | String c s' => findall_from icase r (Some c) skip' s'
      | EmptyString => []
      end
  | 0 =>
      match match_here icase r prev s with
      | Some len =>
          String.substring 0 len s ::
          match s with
          | String c s' => findall_from icase r (Some c) (len - 1) s'
          | EmptyString => []
          end
      | None =>
          match s with
          | String c s' => findall_from icase r (Some c) 0 s'
          | EmptyString => []
          end
      end
  end.

Definition findall (icase : bool) (r : regex) (s : string) : list string :=
  findall_from icase r None 0 s.

(** [re.sub(pattern, '', s)] *)
Fixpoint remove_from (icase : bool) (r : regex)
    (prev : option ascii) (skip : nat) (s : string) : string :=
  match skip with
  | S skip' =>
      match s with
      | String c s' => remove_from icase r (Some c) skip' s'
      | EmptyString => EmptyString
      end
  | 0 =>
      match match_here icase r prev s with
      | Some (S len') =>
          match s with
          | String c s' => remove_from icase r (Some c) len' s'
          | EmptyString => EmptyString
          end
      | _ =>
          match s with
          | String c s' => String c (remove_from icase r (Some c) 0 s')
          | EmptyString => EmptyString
          end
      end
  end.

Definition remove_all (icase : bool) (r : regex) (s : string) : string :=
  remove_from icase r None 0 s.

End Re.

(** ** The patterns of [app.py] *)

Import Re.

(** [(?:\w+:)?intercompanymessage] *)
Definition tag_name : regex :=
  Seq (Opt (Seq (Plus Text.isword) (Chr ":"%char))) (lit "intercompanymessage").

(** [CLOSE_TAG_RE = r'</\s*(?:\w+:)?intercompanymessage\s*>'] *)
Definition CLOSE_TAG_RE : regex :=
  seq [Chr "<"%char; Chr "/"%char; Star Text.isspace; tag_name; Star Text.isspace; Chr ">"%char].

(** [OPEN_TAG_RE = r'<\s*(?:\w+:)?intercompanymessage\b'] *)
Definition OPEN_TAG_RE : regex :=
  seq [Chr "<"%char; Star Text.isspace; tag_name; WordBoundary].

(** The block pattern of [_extract_messages]. *)
Definition MESSAGE_RE : regex :=
  seq [Chr "<"%char; Star Text.isspace; tag_name; LazyStar (fun _ => true);
       Chr "<"%char; Chr "/"%char; Star Text.isspace; tag_name; Star Text.isspace; Chr ">"%char].

(** [r'\s*<\?xml[^\>]*\?>'] *)
Definition XML_DECL_RE : regex :=
  seq [Star Text.isspace; lit "<?xml";
       Star (fun c => negb (Ascii.eqb c ">"%char)); Chr "?"%char; Chr ">"%char].

Definition has_open_tag (cell : string) : bool := search true OPEN_TAG_RE cell.
Definition has_close_tag (cell : string) : bool := search true CLOSE_TAG_RE cell.
Definition has_xml_decl (cell : string) : bool := Text.contains "<?xml" cell.

(** [_extract_messages]: [None] is the [ValueError] raised when no block is
    found. *)
Definition _extract_messages (raw : string) : option (list string) :=
  let raw := Text.strip (Text.remove_bom raw) in
  match findall true MESSAGE_RE raw with
  | [] => None
  | matches =>
      Some (map (fun msg => Text.strip (remove_all true XML_DECL_RE msg)) matches)
  end.


(** ** The parsed document and its XPath queries *)

Inductive node : Type :=
| Text (s : string)
| Elem (tag : string) (attrs : list (string * string)) (kids : list node).

Definition attrs_of (n : node) : list (string * string) :=
  match n with Elem _ a _ => a | Text _ => [] end.

Definition kids_of (n : node) : list node :=
  match n with Elem _ _ k => k | Text _ => [] end.

(** [@name] on one element: its value when the attribute is present. *)
Fixpoint attr (name : string) (attrs : list (string * string)) : list string :=
  match attrs with
  | [] => []
  | (k, v) :: rest => if String.eqb k name then [v] else attr name rest
  end.

(** The predicate [[@name="value"]]. *)
Definition attr_is (name value : string) (attrs : list (string * string)) : bool :=
  match attr name attrs with
  | v :: _ => String.eqb v value
  | [] => false
  end.

Definition any_attrs (_ : list (string * string)) : bool := true.

(** [text()] below one element: its text children, in order. *)
Definition texts (kids : list node) : list string :=
  flat_map (fun k => match k with Text s => [s] | Elem _ _ _ => [] end) kids.

(** [./name[pred]]: the element children of that name, in order. *)
Definition child_elems (name : string) (pred : list (string * string) -> bool)
    (kids : list node) : list node :=
  List.filter (fun k => match k with
                   | Elem t a _ => String.eqb t name && pred a
                   | Text _ => false
                   end) kids.

Section Walk.
Context {A : Type}.
(** What a selected element yields ahead of its content, and what each of
    its children yields ahead of that child's own subtree: results come out
    in document order, as XPath node sets do. *)
Variable at_hit : node -> list A.
Variable at_kid : node -> list A.
Variable pred : list (string * string) -> bool.

(** [//p1//p2 ... //pk[pred]] evaluated from the document root: an element
    named [pk] that satisfies [pred] and lies below a [p(k-1)] that lies
    below ... a [p1]. *)
Fixpoint xpath_walk (path : list string) (n : node) : list A :=
  match n with
  | Text _ => []
  | Elem tag attrs kids =>
      match path with
      | [] => []
      | [last] =>
          if String.eqb tag last && pred attrs then
            at_hit n ++ flat_map (fun k => at_kid k ++ xpath_walk path k) kids
          else flat_map (xpath_walk path) kids
      | p :: rest =>
          flat_map (xpath_walk (if String.eqb tag p then rest else path)) kids
      end
  end.
End Walk.

(** [root.xpath('//a//b[pred]')]: elements. *)
Definition xpath_elems (path : list string)
    (pred : list (string * string) -> bool) (root : node) : list node :=
  xpath_walk (fun n => [n]) (fun _ => []) pred path root.

(** [root.xpath('//a//b/@name')] *)
Definition xpath_attr (path : list string) (name : string) (root : node) : list string :=
  xpath_walk (fun n => attr name (attrs_of n)) (fun _ => []) any_attrs path root.

(** [root.xpath('//a//b[pred]/text()')] *)
Definition xpath_text (path : list string)
    (pred : list (string * string) -> bool) (root : node) : list string :=
  xpath_walk (fun _ => [])
    (fun k => match k with Text s => [s] | Elem _ _ _ => [] end) pred path root.

(** [li.xpath('./name/text()')] *)
Definition rel_text (name : string) (li : node) : list string :=
  flat_map (fun e => texts (kids_of e)) (child_elems name any_attrs (kids_of li)).

(** [li.xpath('./outer/inner[@type="ty"]/text()')] *)
Definition rel_detail_text (outer inner ty : string) (li : node) : list string :=
  flat_map (fun e => texts (kids_of e))
    (flat_map (fun o => child_elems inner (attr_is "type" ty) (kids_of o))
       (child_elems outer any_attrs (kids_of li))).

(** [li.xpath('./name/@a')] *)
Definition rel_attr (name a : string) (li : node) : list string :=
  flat_map (fun e => attr a (attrs_of e)) (child_elems name any_attrs (kids_of li)).

(** ** Dates: [datetime.strptime(s, "%Y-%m-%d").strftime("%d.%m.%Y")] *)

Module Date.

Definition digit_val (c : ascii) : nat := Text.code c - 48.
Definition digit_char (n : nat) : ascii := ascii_of_nat (48 + n mod 10).

(** [%Y] is [\d\d\d\d]. *)
Definition year_field (s : string) : option (nat * string) :=
  match s with
  | String a (String b (String c (String d rest))) =>
      if Text.isdigit_char a && Text.isdigit_char b &&
         Text.isdigit_char c && Text.isdigit_char d
      then Some (1000 * digit_val a + 100 * digit_val b +
                 10 * digit_val c + digit_val d, rest)
      else None
  | _ => None
  end.

(** [%m] is [1[0-2]|0[1-9]|[1-9]]: every way it matches a prefix, in the
    order the alternatives are tried. *)
Definition month_field (s : string) : list (nat * string) :=
  match s with
  | String a t =>
      (match t with
       | String b rest =>
           (if Ascii.eqb a "1" && Text.between 48 50 b
            then [(10 + digit_val b, rest)] else []) ++
           (if Ascii.eqb a "0" && Text.between 49 57 b
            then [(digit_val b, rest)] else [])
       | EmptyString => []
       end) ++
      (if Text.between 49 57 a then [(digit_val a, t)] else [])
  | EmptyString => []
  end.

(** [%d] is [3[0-1]|[1-2]\d|0[1-9]|[1-9]| [1-9]]. *)
Definition day_field (s : string) : list (nat * string) :=
  match s with
  | String a t =>
      (match t with
       | String b rest =>
           (if Ascii.eqb a "3" && Text.between 48 49 b
            then [(30 + digit_val b, rest)] else []) ++
           (if Text.between 49 50 a && Text.isdigit_char b
            then [(10 * digit_val a + digit_val b, rest)] else []) ++
           (if Ascii.eqb a "0" && Text.between 49 57 b
            then [(digit_val b, rest)] else [])
       | EmptyString => []
       end) ++
      (if Text.between 49 57 a then [(digit_val a, t)] else []) ++
      (match t with
       | String b rest =>
           if Ascii.eqb a " " && Text.between 49 57 b
           then [(digit_val b, rest)] else []
       | EmptyString => []
       end)
  | EmptyString => []
  end.

Definition expect (c : ascii) (s : string) : option string :=
  match s with
  | String x rest => if Ascii.eqb x c then Some rest else None
  | EmptyString => None
  end.

(** [%m-%d]: the first way the two fields, with the dash between, match a
    prefix of the input, and what is left. *)
Definition month_day_fields (s : string) : option (nat * nat * string) :=
  head (flat_map (fun '(m, s3) =>
          match expect "-" s3 with
          | None => []
          | Some s4 =>
              match day_field s4 with
              | (d, s5) :: _ => [(m, d, s5)]
              | [] => []
              end
          end) (month_field s)).

(** The first way the whole format matches a prefix of the input: the
    fields and what is left unconverted. *)
Definition match_format (s : string) : option (nat * nat * nat * string) :=
  match year_field s with
  | None => None
  | Some (y, s1) =>
      match expect "-" s1 with
      | None => None
      | Some s2 =>
          match month_day_fields s2 with
          | Some (m, d, s5) => Some (y, m, d, s5)
          | None => None
          end
      end
  end.

Definition is_leap (y : nat) : bool :=
  (y mod 4 =? 0) && (negb (y mod 100 =? 0) || (y mod 400 =? 0)).

Definition days_in_month (y m : nat) : nat :=
  match m with
  | 2 => if is_leap y then 29 else 28
  | 4 | 6 | 9 | 11 => 30
  | _ => 31
  end.

(** [datetime.strptime(s, "%Y-%m-%d")]; [None] is the [ValueError]
    (no match, unconverted data, or no such calendar date). *)
Definition strptime (s : string) : option (nat * nat * nat) :=
  match match_format s with
  | Some (y, m, d, EmptyString) =>
      if (1 <=? y) && (1 <=? m) && (m <=? 12) &&
         (1 <=? d) && (d <=? days_in_month y m)
      then Some (y, m, d) else None
  | _ => None
  end.

Definition pad2 (n : nat) : string :=
  String (digit_char (n / 10)) (String (digit_char n) EmptyString).

Definition pad4 (n : nat) : string :=
  String (digit_char (n / 1000)) (String (digit_char (n / 100))
    (String (digit_char (n / 10)) (String (digit_char n) EmptyString))).

(** [.strftime("%d.%m.%Y")].  The year is written with four digits, as the
  library documents for [%Y] (0001 to 9999); a C library that does not pad
  shortens years below 1000 only. *)
Definition strftime (ymd : nat * nat * nat) : string :=
  let '(y, m, d) := ymd in
  pad2 d +:+ "." +:+ pad2 m +:+ "." +:+ pad4 y.

Definition reformat (s : string) : option string :=
  strftime <$> strptime s.

End Date.

(** ** Integers as text: [str(int(s))] on a string of digits *)

(** [int(s)], called by the code on strings that pass [isdigit] only (lemma
    [all_digits_uint]: on those the digits are read); the interpreter's cap on
    the length of a digit string is not modelled. *)
Definition py_int (s : string) : N :=
  match NilEmpty.uint_of_string s with
  | Some d => N.of_uint d
  | None => 0%N
  end.

Definition py_str (n : N) : string := NilZero.string_of_uint (N.to_uint n).


(** ** The output worksheet *)

Abbreviation sheet := (gmap (nat * nat) string).

(** One entry of [data]: a scalar, or a list with one value per line item
    ([isinstance(cur_val, list)]). *)
Inductive column : Type :=
| Scalar (v : string)
| PerLine (vs : list string).

Definition cell_value (cur_val : column) (cur_record_num : nat) : string :=
  match cur_val with
  | PerLine vs =>
      if cur_record_num <? length vs
      then default "" (vs !! cur_record_num) else ""
  | Scalar v => v
  end.

(** The inner loop [for col in range(len(data))], from column index [col]. *)
Fixpoint write_cells (data : list column) (cur_record_num current_row col : nat)
    (xl_sheet : sheet) : sheet :=
  match data with
  | [] => xl_sheet
  | cur_val :: rest =>
      write_cells rest cur_record_num current_row (col + 1)
        (<[(current_row, col + 1) := cell_value cur_val cur_record_num]> xl_sheet)
  end.

(** The outer loop [for cur_record_num in range(no_line_items)], with
    [remaining] records still to write. *)
Fixpoint write_records (data : list column) (remaining cur_record_num current_row : nat)
    (xl_sheet : sheet) : sheet * nat :=
  match remaining with
  | 0 => (xl_sheet, current_row)
  | S remaining' =>
      write_records data remaining' (cur_record_num + 1) (current_row + 1)
        (write_cells data cur_record_num current_row 0 xl_sheet)
  end.

(** ** The field extractor *)

(** [x1]: the first result of a query, or the empty default. *)
Definition x1 (r : list string) : string :=
  match r with
  | v :: _ => v
  | [] => ""
  end.

Definition LINE_ITEMS (root : node) : list node :=
  xpath_elems ["purchaseOrder"; "lineItems"; "lineItem"] any_attrs root.

Definition get_data (locator : node -> list string) (root : node) : list string :=
  map (fun li => Text.join " " (locator li)) (LINE_ITEMS root).

Definition PUSB (root : node) : string :=
  x1 (xpath_attr ["purchaseOrder"] "PUSB" root).

Definition PO_NUMBER (root : node) : string :=
  x1 (xpath_attr ["purchaseOrder"] "orderNumber" root).

Definition SOS (root : node) : string :=
  x1 (xpath_text ["purchaseOrder"; "header"; "SoS"] any_attrs root).

Definition CUSTPROFCODE (root : node) : string :=
  let v := x1 (xpath_text ["purchaseOrder"; "header"; "customerProfileCode"] any_attrs root) in
  if String.eqb v "" then v else Text.join " " ["STC"; v].

Definition ITRANSPROUTECODE (root : node) : string :=
  x1 (xpath_text ["purchaseOrder"; "header"; "internationalTransportationRouteCode"]
        any_attrs root).

(** The header date: reformatted when non-empty, empty on any failure. *)
Definition header_date (po_create_raw : string) : string :=
  if String.eqb po_create_raw "" then ""
  else match Date.reformat po_create_raw with
       | Some d => d
       | None => ""
       end.

Definition POCREATEDATE (root : node) : string :=
  header_date
    (x1 (xpath_text ["purchaseOrder"; "header"; "purchaseOrderCreationDate"] any_attrs root)).

(** One entry of [POLINESEQNRS]. *)
Definition normalize_seq (i : string) : string :=
  let i := Text.strip i in
  if Text.isdigit i then py_str (py_int i) else i.

Definition POLINESEQNRS (root : node) : list string :=
  map normalize_seq (get_data (fun li => attr "sequenceNumber" (attrs_of li)) root).

Definition MMMPRODID (root : node) : list string :=
  get_data (rel_text "productIdentifier") root.

Definition ORDERQTY (root : node) : list string :=
  get_data (rel_text "orderQuantity") root.

Definition SELLINGUNIT (root : node) : list string :=
  get_data (rel_text "sellingUnit") root.

Definition SUPPLY_CHAIN_UNIT (root : node) : list string := SELLINGUNIT root.

Definition PRODUCT_DESCRIPTION (root : node) : list string :=
  get_data (rel_detail_text "lineItemDetails" "lineItemDetail" "purchaseritemdescription") root.

Definition SPECIAL_HANDLING (root : node) : list string :=
  get_data (rel_detail_text "lineItemDetails" "lineItemDetail" "specialhandlingcode") root.

Definition no_line_items (root : node) : nat := length (POLINESEQNRS root).

Definition LINE_INSTRUCTION (root : node) : list string :=
  replicate (no_line_items root) "".

Definition shiptoaddress_texts (root : node) : list string :=
  xpath_text ["purchaseOrder"; "header"; "purchaseOrderDetails"; "purchaseOrderDetail"]
    (attr_is "type" "shiptoaddress") root.

Definition ADDRESS (root : node) : string :=
  Text.join "; " (rev (shiptoaddress_texts root)).

Definition EXPORT_MARKS (root : node) : list string :=
  replicate (no_line_items root) "".

Definition ORDER_INSTRUCTION (root : node) : string :=
  let v := Text.join ""
             (xpath_text ["purchaseOrder"; "header"; "specialInstructions"; "specialInstruction"]
                (attr_is "type" "AH") root) in
  if String.eqb v "" then "null" else "C" +:+ v.

Definition EXPC_SHIP_TYPE_CODE (root : node) : list string :=
  get_data (rel_attr "requestedShipmentDate" "type") root.

(** One entry of [EXPC_SHIP_DATE]. *)
Definition line_date (date : string) : string :=
  let t := Text.strip date in
  if String.eqb t "None" || String.eqb t "" then ""
  else match Date.reformat date with
       | Some d => d
       | None => ""
       end.

Definition EXPC_SHIP_DATE (root : node) : list string :=
  map line_date (get_data (rel_text "requestedShipmentDate") root).

Definition SAP_PO_NUMBER (root : node) : list string :=
  map (fun po_number => if String.eqb po_number "" then "null" else po_number)
    (get_data (rel_text "purchasingCompanyReferenceNumber") root).

(** [data], the twenty columns in order. *)
Definition data (root : node) : list column :=
  [ Scalar (PUSB root); Scalar (PO_NUMBER root); Scalar (SOS root);
    Scalar (CUSTPROFCODE root); Scalar (ITRANSPROUTECODE root);
    Scalar (POCREATEDATE root);
    PerLine (POLINESEQNRS root); PerLine (MMMPRODID root); PerLine (ORDERQTY root);
    PerLine (SELLINGUNIT root); PerLine (SUPPLY_CHAIN_UNIT root);
    PerLine (PRODUCT_DESCRIPTION root); PerLine (SPECIAL_HANDLING root);
    PerLine (LINE_INSTRUCTION root); Scalar (ADDRESS root);
    PerLine (EXPORT_MARKS root); Scalar (ORDER_INSTRUCTION root);
    PerLine (EXPC_SHIP_TYPE_CODE root); PerLine (EXPC_SHIP_DATE root);
    PerLine (SAP_PO_NUMBER root) ].

(** The body of [process_xml_and_populate_xl_sheet] once the document is
    parsed. *)
Definition populate (root : node) (xl_sheet : sheet) (current_row : nat) : sheet * nat :=
  write_records (data root) (no_line_items root) 0 current_row xl_sheet.

(** ** The scanner *)

Definition MAX_PARTS : nat := 1000.
Definition MAX_XML_BYTES : N := 8 * 1024 * 1024.

Definition headers : list string :=
  [ "PUSB"; "PO_NUMBER"; "SOS"; "CUSTPROFCODE"; "ITRANSPROUTECODE"; "POCREATEDATE";
    "POLINESEQNR"; "MMMPRODID"; "ORDERQTY"; "SELLINGUNIT"; "SUPPLY CHAIN UNIT";
    "PRODUCT DESCRIPTION"; "SPECIAL HANDLING"; "LINE INSTRUCTION"; "ADDRESS";
    "EXPORT MARKS"; "ORDER INSTRUCTION"; "EXPC SHIP TYPE CODE"; "EXPC SHIP DATE";
    "SAP PO NUMBER" ].

(** What the scan leaves behind besides the worksheet: the warnings it logs
    and, for the specification, the calls it makes. *)
Inductive event : Type :=
| Warn_single_cell_too_large (row : nat)
| Warn_extraction_failed (row : nat)
| Warn_chunk_too_large (row : nat)
| Warn_incomplete_chunk (row : nat)
| Warn_chunk_exceeds_size (row : nat)
| Call_extract_messages (raw_xml : string)
| Call_populate (msg : string) (start_row : nat).

Record scan_state : Type := mk_state {
  current_row : nat;
  ws_out : sheet;
  trace : list event
}.

Definition log (e : event) (st : scan_state) : scan_state :=
  mk_state (current_row st) (ws_out st) (trace st ++ [e]).

(** How a block of code ends: normally, or with an exception that the
    enclosing code does not catch. *)
Inductive run : Type :=
| Normal (st : scan_state)
| Exception (st : scan_state).

Inductive step : Type :=
| Continue (i : nat) (st : scan_state)
| Raise (st : scan_state).

Inductive outcome : Type :=
| Finished (st : scan_state)
| Aborted (st : scan_state)
| Out_of_fuel.

(** The inner [while] of the multi-row path: the parts gathered, the value
    of [j] on exit, and whether the exit was the [break] on the part cap. *)
Fixpoint scan_forward (fuel : nat) (colA : list string) (parts : list string) (j : nat)
    : list string * nat * bool :=
  match fuel with
  | 0 => (parts, j, false)
  | S fuel' =>
      if (j <? length colA) && negb (has_close_tag (default "" (colA !! j))) then
        let parts := parts ++ [default "" (colA !! j)] in
        if MAX_PARTS <? length parts then (parts, j, true)
        else scan_forward fuel' colA parts (j + 1)
      else (parts, j, false)
  end.

Section Scanner.

(** [etree.fromstring(xml_content, parser=etree.XMLParser(recover=True))];
    [None] when no tree comes back, upon which the extractor raises. *)
Variable fromstring : string -> option node.

Definition process_xml_and_populate_xl_sheet (xml_content : string)
    (xl_sheet : sheet) (current_row : nat) : option (sheet * nat) :=
  match fromstring xml_content with
  | Some root => Some (populate root xl_sheet current_row)
  | None => None
  end.

(** [for msg in messages: current_row = process_xml_and_populate_xl_sheet(...)] *)
Fixpoint populate_all (messages : list string) (st : scan_state) : run :=
  match messages with
  | [] => Normal st
  | msg :: rest =>
      let st := log (Call_populate msg (current_row st)) st in
      match process_xml_and_populate_xl_sheet msg (ws_out st) (current_row st) with
      | Some (ws, row) => populate_all rest (mk_state row ws (trace st))
      | None => Exception st
      end
  end.

(** [try: messages = _extract_messages(raw_xml) ... for msg in messages: ...],
    after which the cursor moves to [next]. *)
Definition extract_and_populate (raw_xml : string) (i next : nat)
    (st : scan_state) : step :=
  let st := log (Call_extract_messages raw_xml) st in
  match _extract_messages raw_xml with
  | None => Continue next (log (Warn_extraction_failed (i + 1)) st)
  | Some messages =>
      match populate_all messages st with
      | Normal st => Continue next st
      | Exception st => Raise st
      end
  end.

(** One pass through the body of [while i < n]. *)
Definition iteration (colA : list string) (i : nat) (st : scan_state) : step :=
  let n := length colA in
  let cell := default "" (colA !! i) in
  let has_open := has_open_tag cell in
  let has_close := has_close_tag cell in
  if has_open || has_xml_decl cell then
    if has_open && has_close then
      let raw_xml := cell in
      if (MAX_XML_BYTES <? Text.utf8_len raw_xml)%N then
        Continue (i + 1) (log (Warn_single_cell_too_large (i + 1)) st)
      else extract_and_populate raw_xml i (i + 1) st
    else
      let '(parts, j, capped) := scan_forward (n - (i + 1)) colA [cell] (i + 1) in
      let st := if capped then log (Warn_chunk_too_large (i + 1)) st else st in
      if n <=? j then
        Continue (i + 1) (log (Warn_incomplete_chunk (i + 1)) st)
      else
        let parts := parts ++ [default "" (colA !! j)] in
        let raw_xml := Text.join "" parts in
        if (MAX_XML_BYTES <? Text.utf8_len raw_xml)%N then
          Continue (j + 1) (log (Warn_chunk_exceeds_size (i + 1)) st)
        else extract_and_populate raw_xml i (j + 1) st
  else Continue (i + 1) st.

Fixpoint scan_loop (fuel : nat) (colA : list string) (i : nat) (st : scan_state)
    : outcome :=
  if i <? length colA then
    match fuel with
    | 0 => Out_of_fuel
    | S fuel' =>
        match iteration colA i st with
        | Continue i' st' => scan_loop fuel' colA i' st'
        | Raise st' => Aborted st'
        end
    end
  else Finished st.

(** The worksheet after the header row is written, with [current_row] on
    the first data row. *)
Definition initial_state : scan_state :=
  mk_state 2 (write_cells (map Scalar headers) 0 1 0 ∅) [].

(** [process_excel] from the column read off the input workbook to the
    worksheet that is saved; nothing is saved when the scan is aborted. *)
Definition process_excel (colA : list string) : outcome :=
  scan_loop (length colA) colA 0 initial_state.

End Scanner.


(** ** A strict parser for worked examples

    On a document made of elements, single-quoted attributes and plain text
    only (no entity or character reference, comment, processing instruction,
    CDATA section or namespace prefix, no control character), every XML
    parser, lxml's recovering one included, builds the tree [Xml.parse]
    builds.  On any other input [Xml.parse] gives [None]; the examples use it
    so only where lxml yields no tree either: a text with no element name
    after its first angle bracket. *)

Module Xml.

Definition name_start (c : ascii) : bool :=
  Text.isupper_char c || Text.islower_char c || (Text.code c =? 95).

Definition name_char (c : ascii) : bool :=
  name_start c || Text.isdigit_char c || (Text.code c =? 45) || (Text.code c =? 46).

Definition plain (c : ascii) : bool := Text.between 32 126 c.

(** Characters of character data: neither angle bracket nor the ampersand. *)
Definition text_char (c : ascii) : bool :=
  plain c && negb (Text.code c =? 60) && negb (Text.code c =? 62)
          && negb (Text.code c =? 38).

(** Characters of an attribute value: as text, without the quotes. *)
Definition value_char (c : ascii) : bool :=
  text_char c && negb (Text.code c =? 34) && negb (Text.code c =? 39).

Fixpoint span (p : ascii -> bool) (s : string) : string * string :=
  match s with
  | String c s' =>
      if p c then let '(a, b) := span p s' in (String c a, b)
      else (EmptyString, s)
  | EmptyString => (EmptyString, EmptyString)
  end.

Definition name (s : string) : option (string * string) :=
  match s with
  | String c _ =>
      if name_start c then Some (span name_char s) else None
  | EmptyString => None
  end.

(** The attributes of a start tag and how it ends: [true] for [/>]. *)
Fixpoint attributes (fuel : nat) (s : string)
    : option (list (string * string) * bool * string) :=
  match fuel with
  | 0 => None
  | S fuel' =>
      match s with
      | String ">" rest => Some ([], false, rest)
      | String "/" (String ">" rest) => Some ([], true, rest)
      | String " " rest =>
          match Text.lstrip rest with
          | String ">" rest' => Some ([], false, rest')
          | String "/" (String ">" rest') => Some ([], true, rest')
          | rest' =>
              match name rest' with
              | Some (k, String "=" (String "'" after)) =>
                  match span value_char after with
                  | (v, String "'" more) =>
                      match attributes fuel' more with
                      | Some (others, closed, rest'') =>
                          Some ((k, v) :: others, closed, rest'')
                      | None => None
                      end
                  | _ => None
                  end
              | _ => None
              end
          end
      | _ => None
      end
  end.

(** [</name>] with optional blanks before the bracket. *)
Definition end_tag (tag : string) (s : string) : option string :=
  match s with
  | String "<" (String "/" rest) =>
      match name rest with
      | Some (t, after) =>
          if String.eqb t tag then
            match Text.lstrip after with
            | String ">" more => Some more
            | _ => None
            end
          else None
      | None => None
      end
  | _ => None
  end.

(** The nodes up to the next end tag or the end of the input. *)
Fixpoint nodes (fuel : nat) (s : string) : option (list node * string) :=
  match fuel with
  | 0 => None
  | S fuel' =>
      match s with
      | EmptyString => Some ([], s)
      | String "<" (String "/" _) => Some ([], s)
      | String "<" rest =>
          match name rest with
          | None => None
          | Some (tag, after) =>
              match attributes fuel' after with
              | None => None
              | Some (attrs, true, more) =>
                  match nodes fuel' more with
                  | Some (siblings, tl) => Some (Elem tag attrs [] :: siblings, tl)
                  | None => None
                  end
              | Some (attrs, false, more) =>
                  match nodes fuel' more with
                  | None => None
                  | Some (kids, tl) =>
                      match end_tag tag tl with
                      | None => None
                      | Some tl' =>
                          match nodes fuel' tl' with
                          | Some (siblings, tl'') =>
                              Some (Elem tag attrs kids :: siblings, tl'')
                          | None => None
                          end
                      end
                  end
              end
          end
      | String c _ =>
          if text_char c then
            let '(t, rest) := span text_char s in
            match nodes fuel' rest with
            | Some (siblings, tl) => Some (Text t :: siblings, tl)
            | None => None
            end
          else None
      end
  end.

Definition parse (s : string) : option node :=
  match nodes (S (String.length s)) s with
  | Some ([Elem tag attrs kids], EmptyString) => Some (Elem tag attrs kids)
  | _ => None
  end.

End Xml.


(** ** The specification's wording, for comparison with the code *)

(** "Stripping leading zeros" of a string of digits: zeros are dropped from
    the front while another character follows. *)
Fixpoint spec_strip_leading_zeros (s : string) : string :=
  match s with
  | String c s' =>
      if Ascii.eqb c "0" then
        match s' with
        | EmptyString => s
        | String _ _ => spec_strip_leading_zeros s'
        end
      else s
  | EmptyString => s
  end.

(** A calendar date: year 1 to 9999, month 1 to 12, a day that month has. *)
Definition spec_valid_date (y m d : nat) : Prop :=
  1 ≤ y < 100 * 100 ∧ 1 ≤ m ≤ 12 ∧ 1 ≤ d ≤ Date.days_in_month y m.



(** ** Worked examples *)

(** A message with two ship-to address lines and two line items. *)
Definition sample_msg : string :=
  "<intercompanyMessage><purchaseOrder PUSB='P1' orderNumber='77'><header><purchaseOrderCreationDate>2024-03-07</purchaseOrderCreationDate><purchaseOrderDetails><purchaseOrderDetail type='shiptoaddress'>a1</purchaseOrderDetail><purchaseOrderDetail type='shiptoaddress'>a2</purchaseOrderDetail></purchaseOrderDetails></header><lineItems><lineItem sequenceNumber='007'><productIdentifier>X</productIdentifier></lineItem><lineItem sequenceNumber=' A1 '><orderQuantity>5</orderQuantity></lineItem></lineItems></purchaseOrder></intercompanyMessage>".

Definition sample_tree : node :=
  Elem "intercompanyMessage" []
    [Elem "purchaseOrder" [("PUSB", "P1"); ("orderNumber", "77")]
       [Elem "header" []
          [Elem "purchaseOrderCreationDate" [] [Text "2024-03-07"];
           Elem "purchaseOrderDetails" []
             [Elem "purchaseOrderDetail" [("type", "shiptoaddress")] [Text "a1"];
              Elem "purchaseOrderDetail" [("type", "shiptoaddress")] [Text "a2"]]];
        Elem "lineItems" []
          [Elem "lineItem" [("sequenceNumber", "007")]
             [Elem "productIdentifier" [] [Text "X"]];
           Elem "lineItem" [("sequenceNumber", " A1 ")]
             [Elem "orderQuantity" [] [Text "5"]]]]].

(** The closing tag of the sample message cut off. *)
Definition sample_body : string :=
  "<intercompanyMessage><purchaseOrder PUSB='P1' orderNumber='77'><header><purchaseOrderCreationDate>2024-03-07</purchaseOrderCreationDate><purchaseOrderDetails><purchaseOrderDetail type='shiptoaddress'>a1</purchaseOrderDetail><purchaseOrderDetail type='shiptoaddress'>a2</purchaseOrderDetail></purchaseOrderDetails></header><lineItems><lineItem sequenceNumber='007'><productIdentifier>X</productIdentifier></lineItem><lineItem sequenceNumber=' A1 '><orderQuantity>5</orderQuantity></lineItem></lineItems></purchaseOrder>".

(** 1001 rows: an opening tag, then a thousand rows without a closing tag. *)
Definition cap_rows_plain : list string :=
  "<intercompanyMessage>" :: replicate 1000 "x".

(** 1001 rows: the sample message up to its closing tag, 998 empty rows, and
    the closing tag cut in two so that no row holds it whole. *)
Definition cap_rows_split : list string :=
  sample_body :: replicate 998 "" ++ ["</intercompany"; "Message>"].


(** ** What a caller can observe of a scan *)

Definition is_call (e : event) : bool :=
  match e with
  | Call_extract_messages _ | Call_populate _ _ => true
  | _ => false
  end.

Definition calls (tr : list event) : list event := List.filter is_call tr.

(** The output cursor, the worksheet and the calls made: the state without
    the row numbers quoted in the warnings. *)
Definition observable (st : scan_state) : nat * sheet * list event :=
  (current_row st, ws_out st, calls (trace st)).

Definition observable_outcome (o : outcome) : option (bool * (nat * sheet * list event)) :=
  match o with
  | Finished st => Some (true, observable st)
  | Aborted st => Some (false, observable st)
  | Out_of_fuel => None
  end.

(** Two results of the chunk-processing code that leave the same observable
    state, whatever cursor each moves to. *)
Definition same_step (s1 s2 : step) : Prop :=
  match s1, s2 with
  | Continue _ x, Continue _ y => observable x = observable y
  | Raise x, Raise y => observable x = observable y
  | _, _ => False
  end.

(** The same, for two iterations whose input is shifted by [d] rows. *)
Definition shifted_step (d : nat) (s1 s2 : step) : Prop :=
  match s1, s2 with
  | Continue a x, Continue b y => a = d + b ∧ observable x = observable y
  | Raise x, Raise y => observable x = observable y
  | _, _ => False
  end.

(** The sample message cut into five cells, one of them empty, with the
    opening tag in the first and the closing tag in the last. *)
Definition sample_first : string :=
  "<intercompanyMessage><purchaseOrder PUSB='P1' orderNumber='77'><header><purchaseOrderCreationDate>2024-03-07</purchaseOrderCreationDate>".

Definition sample_middle : list string :=
  [ "<purchaseOrderDetails><purchaseOrderDetail type='shiptoaddress'>a1</purchaseOrderDetail><purchaseOrderDetail type='shiptoaddress'>a2</purchaseOrderDetail></purchaseOrderDetails></header><lineItems><lineItem sequenceNumber='007'><productIdentifier>X</productIdentifier></lineItem><line";
    "Item sequenceNumber=' A1 '><orderQuantity>5</orderQuantity></lineItem></lineItems>";
    "" ].

Definition sample_last : string := "</purchaseOrder></intercompanyMessage>".

(** The sample message cut in two inside its opening tag. *)
Definition sample_cut_in_tag : list string :=
  [ "<intercompany";
    "Message><purchaseOrder PUSB='P1' orderNumber='77'><header><purchaseOrderCreationDate>2024-03-07</purchaseOrderCreationDate><purchaseOrderDetails><purchaseOrderDetail type='shiptoaddress'>a1</purchaseOrderDetail><purchaseOrderDetail type='shiptoaddress'>a2</purchaseOrderDetail></purchaseOrderDetails></header><lineItems><lineItem sequenceNumber='007'><productIdentifier>X</productIdentifier></lineItem><lineItem sequenceNumber=' A1 '><orderQuantity>5</orderQuantity></lineItem></lineItems></purchaseOrder></intercompanyMessage>" ].



(** ** Bookkeeping for the properties of a whole scan *)

(** A cell that shows no opening indicator. *)
Definition no_indicator (cell : string) : Prop :=
  has_open_tag cell = false ∧ has_xml_decl cell = false.

(** A recorded call of [_extract_messages] whose text is within the byte
    cap. *)
Definition within_byte_cap (e : event) : Prop :=
  match e with
  | Call_extract_messages raw_xml => (Text.utf8_len raw_xml <= MAX_XML_BYTES)%N
  | _ => True
  end.



(** The filled cells of the worksheet are those of rows 1 to [next_row - 1]
    in columns 1 to 20. *)
Definition filled_block (sh : sheet) (next_row : nat) : Prop :=
  ∀ r c, is_Some (sh !! (r, c)) ↔ (1 ≤ r < next_row ∧ 1 ≤ c ≤ 20).

(** The columns that [data] holds as scalars. *)
Definition scalar_columns : list nat := [1; 2; 3; 4; 5; 6; 15; 17].



(** The state a block of code leaves, however it ends. *)
Definition run_state (r : run) : scan_state :=
  match r with Normal st | Exception st => st end.

Definition step_state (s : step) : scan_state :=
  match s with Continue _ st | Raise st => st end.

(** The state in which a scan stops: at the end of the input or at the
    exception. *)
Definition final_state (o : outcome) : option scan_state :=
  match o with
  | Finished st | Aborted st => Some st
  | Out_of_fuel => None
  end.





(** ** The upload and download routes *)

(** [pathlib]'s [name] and [suffix] of a POSIX path. *)
Module Path.

(** The text between the slashes. *)
Fixpoint split_slash (s : string) : list string :=
  match s with
  | EmptyString => [EmptyString]
  | String c s' =>
      if Ascii.eqb c "/" then EmptyString :: split_slash s'
      else match split_slash s' with
           | h :: t => String c h :: t
           | [] => [String c EmptyString]
           end
  end.

(** [Path(p).name]: the last component, empty and [.] components not
    counting. *)
Definition name (p : string) : string :=
  List.last
    (List.filter (fun x => negb (String.eqb x "") && negb (String.eqb x "."))
       (split_slash p))
    "".

(** [s[s.rfind('.'):]] when [s] has a dot. *)
Fixpoint last_dot_tail (s : string) : option string :=
  match s with
  | EmptyString => None
  | String c s' =>
      match last_dot_tail s' with
      | Some t => Some t
      | None => if Ascii.eqb c "." then Some s else None
      end
  end.

(** [Path(p).suffix]: from the last dot of the name on, unless that dot is
    the first or the last character of the name. *)
Definition suffix (p : string) : string :=
  let n := name p in
  match last_dot_tail n with
  | Some t =>
      let i := String.length n - String.length t in
      if (0 <? i) && (i <? String.length n - 1) then t else ""
  | None => ""
  end.

End Path.

(** [s.lower()] *)
Fixpoint lower_str (s : string) : string :=
  match s with
  | EmptyString => EmptyString
  | String c s' => String (Text.lower c) (lower_str s')
  end.

Definition ALLOWED_EXTENSIONS : list string := [".xlsx"].

Definition _is_allowed (filename : string) : bool :=
  existsb (String.eqb (lower_str (Path.suffix filename))) ALLOWED_EXTENSIONS.

(** The error texts of the JSON replies; the last two carry the text of the
    exception. *)
Inductive error : Type :=
| No_file_part
| No_selected_file
| Only_xlsx_files_allowed
| Save_error
| Processing_error.

Inductive response : Type :=
| Json_error (status : nat) (e : error)
| Json_ok (token : string) (filename : string)
| Not_found
| Send_file (output_path : string) (download_name : string).

(** One entry of [request.files] together with what the file system makes of
    it: whether [f.save] succeeds, and the first column that
    [openpyxl.load_workbook] reads back from the saved file, [None] when
    loading raises.  Saving the result into the fresh temporary directory is
    taken to succeed. *)
Record upload : Type := mk_upload {
  filename : string;
  saves : bool;
  column_a : option (list string)
}.

(** [PROCESS_CACHE]: token to (output path, temporary directory). *)
Abbreviation cache := (gmap string (string * string)).

Section Routes.

Variable fromstring : string -> option node.

(** [werkzeug.utils.secure_filename] *)
Variable secure_filename : string -> string.

(** [process_route], given the directory [tempfile.mkdtemp] creates and the
    token [uuid.uuid4().hex] draws. *)
Definition process_route (files : gmap string upload) (tmp_dir token : string)
    (PROCESS_CACHE : cache) : response * cache :=
  match files !! "file" with
  | None => (Json_error 400 No_file_part, PROCESS_CACHE)
  | Some f =>
      if String.eqb (filename f) "" then (Json_error 400 No_selected_file, PROCESS_CACHE)
      else if negb (_is_allowed (filename f)) then
        (Json_error 400 Only_xlsx_files_allowed, PROCESS_CACHE)
      else
        let orig_name := secure_filename (filename f) in
        let output_path := tmp_dir +:+ "/" +:+ "processed_" +:+ orig_name in
        if negb (saves f) then (Json_error 500 Save_error, PROCESS_CACHE)
        else
          match column_a f with
          | None => (Json_error 500 Processing_error, PROCESS_CACHE)
          | Some colA =>
              match process_excel fromstring colA with
              | Finished _ =>
                  (Json_ok token (Path.name output_path),
                   <[token := (output_path, tmp_dir)]> PROCESS_CACHE)
              | _ => (Json_error 500 Processing_error, PROCESS_CACHE)
              end
          end
  end.

End Routes.

(** [download]: the reply and the cache after [PROCESS_CACHE.pop(token)]; the
    clean-up of the temporary directory after the reply is not modelled. *)
Definition download (token : string) (PROCESS_CACHE : cache) : response * cache :=
  match PROCESS_CACHE !! token with
  | None => (Not_found, PROCESS_CACHE)
  | Some (output_path, _) =>
      (Send_file output_path (Path.name output_path), delete token PROCESS_CACHE)
  end.

(** Whether an element with the given tag occurs in a tree. *)
Fixpoint mentions (tag : string) (n : node) : bool :=
  match n with
  | Text _ => false
  | Elem t _ kids => String.eqb t tag || existsb (mentions tag) kids
  end.

(** * Properties *)

(** ** The worksheet after the write loops *)

Lemma write_cells_lookup (data : list column) (rec row col : nat) (sh : sheet) (r c : nat) :
  write_cells data rec row col sh !! (r, c) =
    if decide (r = row ∧ col < c ≤ col + length data)
    then (λ cv, cell_value cv rec) <$> data !! (c - col - 1)
    else sh !! (r, c).
Proof.
  revert col sh. induction data as [|cv rest IH]; intros col sh; simpl.
  - case_decide; [lia | done].
  - rewrite IH. destruct (decide (r = row ∧ c = col + 1)) as [[-> ->]|Hne].
    + rewrite decide_False by lia. rewrite decide_True by lia.
      rewrite lookup_insert_eq.
      assert (col + 1 - col - 1 = 0) as -> by lia. done.
    + destruct (decide (r = row ∧ col + 1 < c ≤ col + 1 + length rest)) as [H|H].
      * rewrite decide_True by lia.
        assert (c - col - 1 = S (c - (col + 1) - 1)) as -> by lia. done.
      * rewrite decide_False by lia.
        rewrite lookup_insert_ne; [done|]. intros [= ? ?]. lia.
Qed.

Lemma write_records_row (data : list column) (n rec row : nat) (sh : sheet) :
  (write_records data n rec row sh).2 = row + n.
Proof.
  revert rec row sh. induction n as [|n IH]; intros rec row sh; simpl.
  - lia.
  - rewrite IH. lia.
Qed.

Lemma write_records_lookup (data : list column) (n rec row : nat) (sh : sheet) (r c : nat) :
  (write_records data n rec row sh).1 !! (r, c) =
    if decide (row ≤ r < row + n ∧ 1 ≤ c ≤ length data)
    then (λ cv, cell_value cv (rec + (r - row))) <$> data !! (c - 1)
    else sh !! (r, c).
Proof.
  revert rec row sh. induction n as [|n IH]; intros rec row sh; simpl.
  - by rewrite decide_False by lia.
  - rewrite IH, write_cells_lookup.
    destruct (decide (row ≤ r < row + S n ∧ 1 ≤ c ≤ length data)) as [H|H].
    + destruct (decide (r = row)) as [->|Hr].
      * rewrite decide_False by lia. rewrite decide_True by lia.
        assert (row - row = 0) as -> by lia.
        assert (rec + 0 = rec) as -> by lia.
        assert (c - 0 - 1 = c - 1) as -> by lia. done.
      * rewrite decide_True by lia.
        assert (rec + 1 + (r - (row + 1)) = rec + (r - row)) as -> by lia. done.
    + rewrite decide_False by lia. by rewrite decide_False by lia.
Qed.

Lemma write_records_zero (data : list column) (rec row : nat) (sh : sheet) :
  write_records data 0 rec row sh = (sh, row).
Proof. reflexivity. Qed.

Lemma data_length (root : node) : length (data root) = 20.
Proof. reflexivity. Qed.

Lemma no_line_items_eq (root : node) : no_line_items root = length (LINE_ITEMS root).
Proof. unfold no_line_items, POLINESEQNRS, get_data. by rewrite !length_map. Qed.

Lemma populate_row (root : node) (sh : sheet) (row : nat) :
  (populate root sh row).2 = row + length (LINE_ITEMS root).
Proof. unfold populate. by rewrite write_records_row, no_line_items_eq. Qed.

Lemma populate_lookup (root : node) (sh : sheet) (row r c : nat) :
  (populate root sh row).1 !! (r, c) =
    if decide (row ≤ r < row + length (LINE_ITEMS root) ∧ 1 ≤ c ≤ 20)
    then (λ cv, cell_value cv (r - row)) <$> data root !! (c - 1)
    else sh !! (r, c).
Proof.
  unfold populate. rewrite write_records_lookup, data_length, no_line_items_eq.
  done.
Qed.

Lemma sample_msg_parses : Xml.parse sample_msg = Some sample_tree.
Proof. vm_compute. reflexivity. Qed.

(** ** The extractor: rows written and the cursor returned *)





(** C10. One call of the extractor changes only the cells of rows
    [r .. r+N-1] in columns 1 to 20 and leaves every other cell of the sheet
    as it was; in the write loop a per-line column whose list is shorter than
    the number of records yields the empty text at the missing indices. *)
Theorem C10_frame :
  (∀ (root : node) (sh : sheet) (row r c : nat),
     (populate root sh row).1 !! (r, c) =
       if decide (row ≤ r < row + length (LINE_ITEMS root) ∧ 1 ≤ c ≤ 20)
       then (λ cv, cell_value cv (r - row)) <$> data root !! (c - 1)
       else sh !! (r, c))
  ∧ (∀ (cols : list column) (n row : nat) (sh : sheet) (r c : nat),
       ¬ (row ≤ r < row + n ∧ 1 ≤ c ≤ length cols) →
       (write_records cols n 0 row sh).1 !! (r, c) = sh !! (r, c))
  ∧ (∀ (cols : list column) (n row : nat) (sh : sheet) (k c : nat) (vs : list string),
       cols !! c = Some (PerLine vs) → length vs ≤ k < n →
       (write_records cols n 0 row sh).1 !! (row + k, c + 1) = Some "").
Proof.
  split; [|split].
  - intros root sh row r c. exact (populate_lookup root sh row r c).
  - intros cols n row sh r c H. rewrite write_records_lookup.
    by rewrite decide_False by done.
  - intros cols n row sh k c vs Hc Hk. rewrite write_records_lookup.
    pose proof (lookup_lt_Some _ _ _ Hc) as Hlt.
    rewrite decide_True by lia.
    assert (c + 1 - 1 = c) as -> by lia. rewrite Hc. simpl.
    assert (row + k - row = k) as -> by lia.
    destruct (Nat.ltb_spec k (length vs)); [lia | done].
Qed.

Lemma C10_frame_witness :
  [PerLine ["a"]; Scalar "s"] !! 0 = Some (PerLine ["a"]) ∧
  length ["a"] ≤ 1 < 2 ∧
  ¬ (2 ≤ 1 < 2 + 2 ∧ 1 ≤ 1 ≤ length [PerLine ["a"]; Scalar "s"]) ∧
  (write_records [PerLine ["a"]; Scalar "s"] 2 0 2 {[ (1, 1) := "PUSB" ]}).1 !! (1, 1)
    = ({[ (1, 1) := "PUSB" ]} : sheet) !! (1, 1) ∧
  (write_records [PerLine ["a"]; Scalar "s"] 2 0 2 {[ (1, 1) := "PUSB" ]}).1 !! (2 + 1, 0 + 1)
    = Some "".
Proof.
  destruct C10_frame as (_ & Hframe & Hshort).
  assert (H1 : [PerLine ["a"]; Scalar "s"] !! 0 = Some (PerLine ["a"])) by reflexivity.
  assert (H2 : length ["a"] ≤ 1 < 2) by (simpl; lia).
  assert (H3 : ¬ (2 ≤ 1 < 2 + 2 ∧ 1 ≤ 1 ≤ length [PerLine ["a"]; Scalar "s"])) by lia.
  split; [exact H1|]. split; [exact H2|]. split; [exact H3|]. split.
  - exact (Hframe _ 2 2 {[ (1, 1) := "PUSB" ]} 1 1 H3).
  - exact (Hshort _ 2 2 {[ (1, 1) := "PUSB" ]} 1 0 ["a"] H1 H2).
Defined.

(** ** The scanner: one iteration *)

Lemma scan_forward_ge (fuel : nat) (colA parts : list string) (j : nat) :
  j ≤ (scan_forward fuel colA parts j).1.2.
Proof.
  revert parts j. induction fuel as [|fuel IH]; intros parts j; simpl; [lia|].
  destruct ((j <? length colA) && negb (has_close_tag (default "" (colA !! j)))); [|simpl; lia].
  destruct (MAX_PARTS <? length (parts ++ [default "" (colA !! j)])); [simpl; lia|].
  specialize (IH (parts ++ [default "" (colA !! j)]) (j + 1)). lia.
Qed.

(** The inner loop needs at most [len(colA) - j] passes: more fuel changes
    nothing, and with none left the loop condition is false. *)
Lemma scan_forward_fuel (fuel extra : nat) (colA parts : list string) (j : nat) :
  length colA - j ≤ fuel →
  scan_forward (fuel + extra) colA parts j = scan_forward fuel colA parts j.
Proof.
  revert parts j. induction fuel as [|fuel IH]; intros parts j Hfuel.
  - destruct extra; simpl; [done|].
    by destruct (Nat.ltb_spec j (length colA)); [lia|].
  - simpl. destruct (_ && _); [|done]. destruct (MAX_PARTS <? _); [done|].
    apply IH. lia.
Qed.

Lemma extract_and_populate_next (fromstring : string -> option node)
    (raw_xml : string) (i next : nat) (st : scan_state) :
  match extract_and_populate fromstring raw_xml i next st with
  | Continue i' _ => i' = next
  | Raise _ => True
  end.
Proof.
  unfold extract_and_populate. destruct (_extract_messages raw_xml); [|done].
  by destruct (populate_all _ _ _).
Qed.

(** Where one iteration leaves the input cursor. *)
Lemma iteration_next (fromstring : string -> option node)
    (colA : list string) (i : nat) (st : scan_state) :
  match iteration fromstring colA i st with
  | Continue i' _ => i' = i + 1 ∨ ∃ j, i + 1 ≤ j < length colA ∧ i' = j + 1
  | Raise _ => True
  end.
Proof.
  unfold iteration.
  destruct (has_open_tag (default "" (colA !! i)) || has_xml_decl (default "" (colA !! i)));
    [|by left].
  destruct (has_open_tag (default "" (colA !! i)) && has_close_tag (default "" (colA !! i))).
  - destruct (MAX_XML_BYTES <? _)%N; [by left|].
    pose proof (extract_and_populate_next fromstring (default "" (colA !! i)) i (i + 1) st) as H.
    destruct (extract_and_populate _ _ _ _ _); [by left | done].
  - pose proof (scan_forward_ge (length colA - (i + 1)) colA [default "" (colA !! i)] (i + 1)) as Hge.
    destruct (scan_forward _ _ _ _) as [[parts j] capped]. simpl in Hge.
    destruct (Nat.leb_spec (length colA) j) as [Hj|Hj]; [by left|].
    destruct (MAX_XML_BYTES <? _)%N; [right; exists j; lia|].
    match goal with |- context [extract_and_populate ?f ?raw ?a ?b ?s] =>
      pose proof (extract_and_populate_next f raw a b s) as H;
      destruct (extract_and_populate f raw a b s) end; [right; exists j; lia | done].
Qed.

(** The same, path by path. *)
Lemma iteration_cursor (fromstring : string -> option node)
    (colA : list string) (i : nat) (st : scan_state) :
  let cell := default "" (colA !! i) in
  match iteration fromstring colA i st with
  | Continue i' _ =>
      if has_open_tag cell || has_xml_decl cell then
        if has_open_tag cell && has_close_tag cell then i' = i + 1
        else
          let j := (scan_forward (length colA - (i + 1)) colA [cell] (i + 1)).1.2 in
          i + 1 ≤ j ∧
          if length colA <=? j then i' = i + 1 else i' = j + 1 ∧ i + 2 ≤ i'
      else i' = i + 1
  | Raise _ => True
  end.
Proof.
  intros cell. unfold iteration. fold cell.
  destruct (has_open_tag cell || has_xml_decl cell); [|done].
  destruct (has_open_tag cell && has_close_tag cell).
  - destruct (MAX_XML_BYTES <? _)%N; [done|].
    pose proof (extract_and_populate_next fromstring cell i (i + 1) st) as H.
    by destruct (extract_and_populate _ _ _ _ _).
  - pose proof (scan_forward_ge (length colA - (i + 1)) colA [cell] (i + 1)) as Hge.
    destruct (scan_forward _ _ _ _) as [[parts j] capped]. simpl in Hge |- *.
    destruct (length colA <=? j); [done|].
    destruct (MAX_XML_BYTES <? _)%N; [simpl; lia|].
    match goal with |- context [extract_and_populate ?f ?raw ?a ?b ?s] =>
      pose proof (extract_and_populate_next f raw a b s) as H;
      destruct (extract_and_populate f raw a b s) end; [lia | done].
Qed.

Lemma scan_loop_terminates (fromstring : string -> option node)
    (colA : list string) (fuel i : nat) (st : scan_state) :
  length colA - i ≤ fuel →
  ∃ st', scan_loop fromstring fuel colA i st = Finished st'
       ∨ scan_loop fromstring fuel colA i st = Aborted st'.
Proof.
  revert i st. induction fuel as [|fuel IH]; intros i st Hfuel.
  - exists st. left. simpl. destruct (Nat.ltb_spec i (length colA)); [lia|done].
  - simpl. destruct (Nat.ltb_spec i (length colA)) as [Hi|Hi]; [|by exists st; left].
    pose proof (iteration_next fromstring colA i st) as Hnext.
    destruct (iteration fromstring colA i st) as [i' st'|st']; [|by exists st'; right].
    apply IH. destruct Hnext as [->|(j & Hj & ->)]; lia.
Qed.

(** C8. At a row with no opening indicator (no opening tag of the message
    element and no [<?xml]) the scanner makes no call, logs nothing, leaves
    the output cursor and the sheet alone, and moves the input cursor on by
    one. *)
Theorem C8_no_indicator_row
    (fromstring : string -> option node) (colA : list string) (i : nat)
    (cell : string) (st : scan_state) :
  colA !! i = Some cell →
  has_open_tag cell = false →
  has_xml_decl cell = false →
  iteration fromstring colA i st = Continue (i + 1) st.
Proof.
  intros Hcell Hopen Hdecl. unfold iteration. rewrite Hcell. simpl.
  by rewrite Hopen, Hdecl.
Qed.

Lemma C8_no_indicator_row_witness :
  ["header text"; sample_msg] !! 0 = Some "header text" ∧
  has_open_tag "header text" = false ∧
  has_xml_decl "header text" = false ∧
  iteration Xml.parse ["header text"; sample_msg] 0 (initial_state)
    = Continue (0 + 1) initial_state.
Proof.
  split; [reflexivity|]. split; [vm_compute; reflexivity|].
  split; [vm_compute; reflexivity|].
  apply (C8_no_indicator_row Xml.parse ["header text"; sample_msg] 0 "header text").
  - reflexivity.
  - vm_compute. reflexivity.
  - vm_compute. reflexivity.
Defined.

(** C9. Every pass through the loop body that does not raise moves the input
    cursor strictly forward: to [i + 1] on the no-indicator and single-cell
    paths and on the skip of an incomplete chunk, and to [j + 1] with
    [j + 1 >= i + 2] on the multi-row paths that stop at a row [j]; hence the loop ends on every row sequence, the
    budget of [len(colA) - i] passes always being enough, for the inner loop
    as for the outer one. *)
Theorem C9_scan_terminates (fromstring : string -> option node) (colA : list string) :
  (∀ i st,
     match iteration fromstring colA i st with
     | Continue i' _ =>
         i < i' ∧ (i' = i + 1 ∨ ∃ j, i + 1 ≤ j < length colA ∧ i' = j + 1 ∧ i + 2 ≤ j + 1)
     | Raise _ => True
     end)
  ∧ (∀ i st,
       let cell := default "" (colA !! i) in
       match iteration fromstring colA i st with
       | Continue i' _ =>
           if has_open_tag cell || has_xml_decl cell then
             if has_open_tag cell && has_close_tag cell then i' = i + 1
             else
               let j := (scan_forward (length colA - (i + 1)) colA [cell] (i + 1)).1.2 in
               i + 1 ≤ j ∧
               if length colA <=? j then i' = i + 1 else i' = j + 1 ∧ i + 2 ≤ i'
           else i' = i + 1
       | Raise _ => True
       end)
  ∧ (∀ j parts extra,
       scan_forward (length colA - j + extra) colA parts j
         = scan_forward (length colA - j) colA parts j)
  ∧ (∀ i st extra, ∃ st',
       scan_loop fromstring (length colA - i + extra) colA i st = Finished st'
       ∨ scan_loop fromstring (length colA - i + extra) colA i st = Aborted st')
  ∧ (∃ st', process_excel fromstring colA = Finished st'
          ∨ process_excel fromstring colA = Aborted st').
Proof.
  split; [|split; [|split; [|split]]].
  - intros i st. pose proof (iteration_next fromstring colA i st) as H.
    destruct (iteration fromstring colA i st); [|done].
    destruct H as [->|(j & Hj & ->)]; (split; [lia|]); [by left|].
    right. exists j. lia.
  - intros i st. exact (iteration_cursor fromstring colA i st).
  - intros j parts extra. by apply scan_forward_fuel.
  - intros i st extra. apply scan_loop_terminates. lia.
  - apply scan_loop_terminates. lia.
Qed.

(** ** Sequence numbers *)

Lemma isdigit_char_cases (c : ascii) :
  Text.isdigit_char c = true →
  c ∈ ["0"; "1"; "2"; "3"; "4"; "5"; "6"; "7"; "8"; "9"]%char.
Proof.
  destruct c as [[] [] [] [] [] [] [] []]; vm_compute; try discriminate; intros _;
    repeat (first [apply list_elem_of_here | apply list_elem_of_further]).
Qed.

Lemma all_digits_uint (s : string) :
  Text.all_digits s = true →
  ∃ d, NilEmpty.uint_of_string s = Some d ∧ NilEmpty.string_of_uint d = s.
Proof.
  induction s as [|c s IH]; simpl.
  - intros _. by exists Decimal.Nil.
  - intros [Hc Hs]%andb_true_iff. destruct (IH Hs) as (d & Hd & Hs').
    rewrite Hd. apply isdigit_char_cases in Hc.
    repeat (apply elem_of_cons in Hc as [->|Hc]; [eexists; split; [reflexivity|simpl; by rewrite Hs']|]).
    by apply elem_of_nil in Hc.
Qed.

Lemma string_of_unorm (d : Decimal.uint) :
  d ≠ Decimal.Nil →
  NilZero.string_of_uint (Decimal.unorm d)
    = spec_strip_leading_zeros (NilEmpty.string_of_uint d).
Proof.
  induction d as [|d IH|d _|d _|d _|d _|d _|d _|d _|d _|d _]; intros Hne; try done.
  rewrite unorm_D0. simpl. destruct d; try (by apply IH); done.
Qed.

(** [str(int(s))] drops the leading zeros of a string of digits. *)
Lemma py_str_py_int (s : string) :
  Text.isdigit s = true → py_str (py_int s) = spec_strip_leading_zeros s.
Proof.
  intros Hs. assert (s ≠ EmptyString) as Hne by (by destruct s).
  assert (Text.all_digits s = true) as Hall by (by destruct s).
  destruct (all_digits_uint s Hall) as (d & Hd & Hsd).
  unfold py_str, py_int. rewrite Hd, Unsigned.to_of, string_of_unorm.
  - by rewrite Hsd.
  - intros ->. simpl in Hsd. congruence.
Qed.




(** ** Dates *)


















(** ** The part cap *)

Lemma sample_msg_body : sample_msg = sample_body +:+ "</intercompanyMessage>".
Proof. reflexivity. Qed.

Lemma scan_forward_capped (fuel : nat) (colA parts : list string) (j : nat)
    (parts' : list string) (j' : nat) :
  scan_forward fuel colA parts j = (parts', j', true) →
  j' < length colA ∧ MAX_PARTS < length parts'.
Proof.
  revert parts j. induction fuel as [|fuel IH]; intros parts j; simpl; [done|].
  destruct (Nat.ltb_spec j (length colA)) as [Hj|Hj]; simpl; [|done].
  destruct (negb _); [|done].
  destruct (Nat.ltb_spec MAX_PARTS (length (parts ++ [default "" (colA !! j)]))) as [Hc|Hc].
  - intros [= <- <-]. done.
  - apply IH.
Qed.

(** Whenever the inner loop leaves through the [break] on the part cap, the
    code goes on to append row [j] once more and to call
    [_extract_messages] on the joined parts, unless the byte cap stops it. *)
Lemma cap_break_reaches_extraction (fromstring : string -> option node)
    (colA : list string) (i : nat) (st : scan_state) (parts : list string) (j : nat) :
  let cell := default "" (colA !! i) in
  let raw_xml := Text.join "" (parts ++ [default "" (colA !! j)]) in
  has_open_tag cell || has_xml_decl cell = true →
  has_open_tag cell && has_close_tag cell = false →
  scan_forward (length colA - (i + 1)) colA [cell] (i + 1) = (parts, j, true) →
  (MAX_XML_BYTES <? Text.utf8_len raw_xml)%N = false →
  iteration fromstring colA i st
    = extract_and_populate fromstring raw_xml i (j + 1)
        (log (Warn_chunk_too_large (i + 1)) st).
Proof.
  intros cell raw_xml Hind Hsingle Hscan Hsize. unfold iteration.
  fold cell. rewrite Hind, Hsingle, Hscan.
  destruct (scan_forward_capped _ _ _ _ _ _ Hscan) as [Hj _].
  destruct (Nat.leb_spec (length colA) j); [lia|].
  fold raw_xml. by rewrite Hsize.
Qed.

(** C1, at two inputs of 1001 rows.  With no closing tag anywhere the scanner
    logs the cap warning and then calls [_extract_messages] on the joined
    parts, row 1000 appended twice.  With the closing tag cut across the last
    two rows that call finds the sample message, and its two line items are
    written to rows 2 and 3. *)
Theorem C1_cap_exceeded_still_extracts :
  (∃ st, process_excel Xml.parse cap_rows_plain = Finished st
       ∧ trace st =
           [Warn_chunk_too_large 1;
            Call_extract_messages
              ("<intercompanyMessage>" +:+ String.concat "" (replicate 1001 "x"));
            Warn_extraction_failed 1]
       ∧ current_row st = 2)
  ∧ (∃ st, process_excel Xml.parse cap_rows_split = Finished st
         ∧ trace st =
             [Warn_chunk_too_large 1;
              Call_extract_messages (sample_msg +:+ "Message>");
              Call_populate sample_msg 2]
         ∧ current_row st = 4
         ∧ ws_out st !! (2, 7) = Some "7"
         ∧ ws_out st !! (3, 7) = Some "A1").
Proof.
  split.
  - eexists. split; [vm_compute; reflexivity|]. split; vm_compute; reflexivity.
  - eexists. split; [vm_compute; reflexivity|].
    repeat split; vm_compute; reflexivity.
Qed.

(** ** Failures while a message is processed *)









(** ** A message split over several cells *)

Lemma calls_app (tr1 tr2 : list event) : calls (tr1 ++ tr2) = calls tr1 ++ calls tr2.
Proof. unfold calls. apply List.filter_app. Qed.

Lemma observable_log (e1 e2 : event) (st1 st2 : scan_state) :
  calls [e1] = calls [e2] →
  observable st1 = observable st2 →
  observable (log e1 st1) = observable (log e2 st2).
Proof.
  intros He [= H1 H2 H3]. unfold observable, log. cbn [current_row ws_out trace].
  by rewrite !calls_app, H1, H2, H3, He.
Qed.

Lemma populate_all_observable (fromstring : string -> option node)
    (messages : list string) (st1 st2 : scan_state) :
  observable st1 = observable st2 →
  match populate_all fromstring messages st1, populate_all fromstring messages st2 with
  | Normal x, Normal y => observable x = observable y
  | Exception x, Exception y => observable x = observable y
  | _, _ => False
  end.
Proof.
  revert st1 st2. induction messages as [|msg rest IH]; intros st1 st2 Hobs; simpl; [done|].
  pose proof Hobs as [= Hrow Hws Hcalls].
  rewrite Hrow, Hws.
  destruct (process_xml_and_populate_xl_sheet _ _ _ _) as [[ws row]|].
  - apply IH. unfold observable. simpl. rewrite !calls_app. congruence.
  - unfold observable. simpl. rewrite !calls_app. congruence.
Qed.

Lemma extract_and_populate_observable (fromstring : string -> option node)
    (raw_xml : string) (i1 i2 next1 next2 : nat) (st1 st2 : scan_state) :
  observable st1 = observable st2 →
  match extract_and_populate fromstring raw_xml i1 next1 st1,
        extract_and_populate fromstring raw_xml i2 next2 st2 with
  | Continue a x, Continue b y => a = next1 ∧ b = next2 ∧ observable x = observable y
  | Raise x, Raise y => observable x = observable y
  | _, _ => False
  end.
Proof.
  intros Hobs. unfold extract_and_populate.
  assert (observable (log (Call_extract_messages raw_xml) st1)
          = observable (log (Call_extract_messages raw_xml) st2)) as Hobs'
    by (by apply observable_log).
  destruct (_extract_messages raw_xml) as [messages|].
  - pose proof (populate_all_observable fromstring messages _ _ Hobs') as H.
    destruct (populate_all _ _ (log _ st1)), (populate_all _ _ (log _ st2)); done.
  - split; [done|]. split; [done|]. by apply observable_log.
Qed.

Lemma scan_forward_shift (pre suf : list string) (fuel : nat) (parts : list string) (j : nat) :
  scan_forward fuel (pre ++ suf) parts (length pre + j) =
    let '(p, j', c) := scan_forward fuel suf parts j in (p, length pre + j', c).
Proof.
  revert parts j. induction fuel as [|fuel IH]; intros parts j; simpl; [done|].
  rewrite lookup_app_r, length_app by lia.
  assert (length pre + j - length pre = j) as -> by lia.
  assert ((length pre + j <? length pre + length suf) = (j <? length suf)) as ->.
  { destruct (Nat.ltb_spec j (length suf)), (Nat.ltb_spec (length pre + j) (length pre + length suf));
      done || lia. }
  destruct ((j <? length suf) && negb (has_close_tag (default "" (suf !! j)))); [|done].
  destruct (MAX_PARTS <? _); [done|].
  assert (length pre + j + 1 = length pre + (j + 1)) as -> by lia. apply IH.
Qed.

Lemma iteration_shift (fromstring : string -> option node)
    (pre suf : list string) (k : nat) (st1 st2 : scan_state) :
  observable st1 = observable st2 →
  shifted_step (length pre)
    (iteration fromstring (pre ++ suf) (length pre + k) st1)
    (iteration fromstring suf k st2).
Proof.
  intros Hobs. unfold iteration.
  rewrite lookup_app_r, length_app by lia.
  assert (length pre + k - length pre = k) as -> by lia.
  set (cell := default "" (suf !! k)).
  destruct (has_open_tag cell || has_xml_decl cell); [|simpl; split; [lia|done]].
  destruct (has_open_tag cell && has_close_tag cell).
  - destruct (MAX_XML_BYTES <? _)%N.
    + simpl. split; [lia|]. by apply observable_log.
    + pose proof (extract_and_populate_observable fromstring cell
                    (length pre + k) k (length pre + k + 1) (k + 1) st1 st2 Hobs) as H.
      destruct (extract_and_populate _ _ (length pre + k) _ _),
               (extract_and_populate _ _ k _ _); try done.
      simpl. destruct H as (-> & -> & H). split; [lia|done].
  - assert (length pre + length suf - (length pre + k + 1) = length suf - (k + 1)) as -> by lia.
    assert (length pre + k + 1 = length pre + (k + 1)) as -> by lia.
    rewrite scan_forward_shift.
    destruct (scan_forward _ suf _ _) as [[parts j] capped].
    assert (observable (if capped then log (Warn_chunk_too_large (length pre + (k + 1))) st1 else st1)
            = observable (if capped then log (Warn_chunk_too_large (k + 1)) st2 else st2)) as Hobs'.
    { destruct capped; [by apply observable_log | done]. }
    assert ((length pre + length suf <=? length pre + j) = (length suf <=? j)) as ->.
    { destruct (Nat.leb_spec (length suf) j),
               (Nat.leb_spec (length pre + length suf) (length pre + j)); done || lia. }
    destruct (length suf <=? j).
    + simpl. split; [lia|]. by apply observable_log.
    + rewrite lookup_app_r by lia.
      assert (length pre + j - length pre = j) as -> by lia.
      destruct (MAX_XML_BYTES <? _)%N.
      * simpl. split; [lia|]. by apply observable_log.
      * match goal with |- context [extract_and_populate _ ?raw _ _ _] =>
          pose proof (extract_and_populate_observable fromstring raw
                        (length pre + k) k (length pre + j + 1) (j + 1) _ _ Hobs') as H
        end.
        destruct (extract_and_populate _ _ (length pre + k) _ _),
                 (extract_and_populate _ _ k _ _); try done.
        simpl. destruct H as (-> & -> & H). split; [lia|done].
Qed.

Lemma scan_loop_shift (fromstring : string -> option node)
    (pre suf : list string) (fuel k : nat) (st1 st2 : scan_state) :
  observable st1 = observable st2 →
  observable_outcome (scan_loop fromstring fuel (pre ++ suf) (length pre + k) st1)
    = observable_outcome (scan_loop fromstring fuel suf k st2).
Proof.
  revert k st1 st2. induction fuel as [|fuel IH]; intros k st1 st2 Hobs; simpl;
    rewrite length_app;
    (assert ((length pre + k <? length pre + length suf) = (k <? length suf)) as ->
       by (destruct (Nat.ltb_spec k (length suf)),
                    (Nat.ltb_spec (length pre + k) (length pre + length suf)); done || lia));
    destruct (k <? length suf); try done; try (simpl; by rewrite Hobs).
  pose proof (iteration_shift fromstring pre suf k st1 st2 Hobs) as H.
  destruct (iteration _ (pre ++ suf) _ _), (iteration _ suf _ _); try done; simpl in H.
  - destruct H as [-> H]. by apply IH.
  - simpl. by rewrite H.
Qed.

Lemma scan_loop_done (fromstring : string -> option node)
    (colA : list string) (fuel i : nat) (st : scan_state) :
  length colA ≤ i → scan_loop fromstring fuel colA i st = Finished st.
Proof.
  intros Hi. destruct fuel; simpl; by destruct (Nat.ltb_spec i (length colA)); [lia|].
Qed.

Lemma scan_loop_fuel (fromstring : string -> option node)
    (colA : list string) (fuel extra i : nat) (st : scan_state) :
  length colA - i ≤ fuel →
  scan_loop fromstring (fuel + extra) colA i st = scan_loop fromstring fuel colA i st.
Proof.
  revert i st. induction fuel as [|fuel IH]; intros i st Hfuel.
  - rewrite !scan_loop_done by lia. done.
  - simpl. destruct (i <? length colA); [|done].
    pose proof (iteration_next fromstring colA i st) as Hnext.
    destruct (iteration fromstring colA i st) as [i' st'|st']; [|done].
    apply IH. destruct Hnext as [->|(j & Hj & ->)]; lia.
Qed.

(** The inner loop gathers the cells without a closing tag and stops at the
    first cell that has one. *)
Lemma scan_forward_collect (ps : list string) :
  ∀ (fuel : nat) (pre post parts : list string) (pl : string),
    Forall (λ p, has_close_tag p = false) ps →
    has_close_tag pl = true →
    length parts + length ps ≤ MAX_PARTS →
    length ps ≤ fuel →
    scan_forward fuel (pre ++ ps ++ pl :: post) parts (length pre)
      = (parts ++ ps, length pre + length ps, false).
Proof.
  induction ps as [|p ps IH]; intros fuel pre post parts pl Hps Hpl Hcap Hfuel.
  - rewrite app_nil_r, Nat.add_0_r. destruct fuel; simpl; [done|].
    rewrite lookup_app_r, Nat.sub_diag by lia. simpl. rewrite Hpl.
    by rewrite andb_false_r.
  - destruct fuel as [|fuel]; [simpl in Hfuel; lia|]. simpl.
    rewrite lookup_app_r, Nat.sub_diag, length_app by lia. simpl.
    apply Forall_cons in Hps as [Hp Hps]. rewrite Hp. simpl.
    destruct (Nat.ltb_spec (length pre) (length pre + S (length (ps ++ pl :: post)))); [|lia].
    simpl. rewrite length_app. simpl in Hcap |- *.
    destruct (Nat.ltb_spec MAX_PARTS (length parts + 1)); [lia|].
    specialize (IH fuel (pre ++ [p]) post (parts ++ [p]) pl Hps Hpl).
    rewrite !length_app in IH. simpl in IH.
    rewrite <- !app_assoc in IH. simpl in IH. rewrite IH.
    + do 2 f_equal; lia.
    + lia.
    + simpl in Hfuel. lia.
Qed.

Lemma scan_loop_step (fromstring : string -> option node)
    (colA : list string) (fuel i : nat) (st : scan_state) :
  i < length colA →
  scan_loop fromstring (S fuel) colA i st =
    match iteration fromstring colA i st with
    | Continue i' st' => scan_loop fromstring fuel colA i' st'
    | Raise st' => Aborted st'
    end.
Proof. intros Hi. simpl. by destruct (Nat.ltb_spec i (length colA)); [|lia]. Qed.

Lemma iteration_single_cell (fromstring : string -> option node)
    (m : string) (post : list string) (st : scan_state) :
  has_open_tag m = true → has_close_tag m = true →
  iteration fromstring (m :: post) 0 st =
    if (MAX_XML_BYTES <? Text.utf8_len m)%N
    then Continue 1 (log (Warn_single_cell_too_large 1) st)
    else extract_and_populate fromstring m 0 1 st.
Proof. intros Ho Hc. unfold iteration. simpl. by rewrite Ho, Hc. Qed.

Lemma iteration_split (fromstring : string -> option node)
    (p1 pl : string) (ps post : list string) (st : scan_state) :
  has_open_tag p1 = true → has_close_tag p1 = false →
  Forall (λ p, has_close_tag p = false) ps →
  has_close_tag pl = true →
  length ps < MAX_PARTS →
  iteration fromstring (p1 :: ps ++ pl :: post) 0 st =
    let raw_xml := Text.join "" (p1 :: ps ++ [pl]) in
    if (MAX_XML_BYTES <? Text.utf8_len raw_xml)%N
    then Continue (length ps + 2) (log (Warn_chunk_exceeds_size 1) st)
    else extract_and_populate fromstring raw_xml 0 (length ps + 2) st.
Proof.
  intros Ho Hc Hps Hpl Hcap. unfold iteration.
  change ((p1 :: ps ++ pl :: post) !! 0) with (Some p1).
  change (default "" (Some p1)) with p1. rewrite Ho, Hc. cbn [orb andb].
  pose proof (scan_forward_collect ps (length (p1 :: ps ++ pl :: post) - (0 + 1))
                [p1] post [p1] pl Hps Hpl) as Hscan.
  change ([p1] ++ ps ++ pl :: post) with (p1 :: ps ++ pl :: post) in Hscan.
  change (length [p1]) with 1 in Hscan. change (0 + 1) with 1 in *.
  rewrite Hscan; cycle 1.
  { lia. }
  { simpl. rewrite length_app. simpl. lia. }
  assert (length (p1 :: ps ++ pl :: post) = length ps + 2 + length post) as Hlen.
  { simpl. rewrite length_app. simpl. lia. }
  rewrite Hlen.
  destruct (Nat.leb_spec (length ps + 2 + length post) (1 + length ps)); [lia|].
  assert ((p1 :: ps ++ pl :: post) !! (1 + length ps) = Some pl) as ->.
  { simpl. by rewrite lookup_app_r, Nat.sub_diag by lia. }
  change (default "" (Some pl)) with pl.
  change ([p1] ++ ps) with (p1 :: ps).
  assert ((p1 :: ps) ++ [pl] = p1 :: ps ++ [pl]) as -> by done.
  assert (1 + length ps + 1 = length ps + 2) as -> by lia.
  done.
Qed.

(** Past the chunk both scans see the same rows. *)
Lemma scan_after_chunk (fromstring : string -> option node)
    (m p1 pl : string) (ps post : list string) (st1 st2 : scan_state) :
  observable st1 = observable st2 →
  observable_outcome
    (scan_loop fromstring (length (ps ++ pl :: post)) (p1 :: ps ++ pl :: post)
       (length ps + 2) st1)
  = observable_outcome (scan_loop fromstring (length post) (m :: post) 1 st2).
Proof.
  intros Hobs.
  assert (p1 :: ps ++ pl :: post = (p1 :: ps ++ [pl]) ++ post) as ->.
  { simpl. by rewrite <- app_assoc. }
  assert (length ps + 2 = length (p1 :: ps ++ [pl]) + 0) as ->.
  { simpl. rewrite length_app. simpl. lia. }
  rewrite (scan_loop_shift fromstring _ post _ 0 st1 st2 Hobs).
  change (m :: post) with ([m] ++ post). change 1 with (length [m] + 0).
  rewrite (scan_loop_shift fromstring [m] post _ 0 st2 st2 eq_refl).
  assert (length (ps ++ pl :: post) = length post + (length ps + 1)) as ->.
  { rewrite length_app. simpl. lia. }
  rewrite scan_loop_fuel by lia. done.
Qed.

(** C4, as the code has it.  A message that holds an opening and a closing
    tag, when cut into consecutive cells such that the first cell holds an
    opening tag, the last cell holds a closing tag, no cell before the last
    holds one, and fewer than 1000 cells lie between the first and the last,
    is reassembled to the very same text, which is what the scanner hands to
    message extraction; the extractor calls, the worksheet and the output
    cursor at the end of the scan are those of the scan with the message in
    one cell. *)
Theorem C4_split_message
    (fromstring : string -> option node) (m p1 pl : string) (ps post : list string) :
  Text.join "" (p1 :: ps ++ [pl]) = m →
  has_open_tag m = true → has_close_tag m = true →
  has_open_tag p1 = true → has_close_tag p1 = false →
  Forall (λ p, has_close_tag p = false) ps →
  has_close_tag pl = true →
  length ps < MAX_PARTS →
  (∀ st,
     iteration fromstring (p1 :: ps ++ pl :: post) 0 st =
       if (MAX_XML_BYTES <? Text.utf8_len m)%N
       then Continue (length ps + 2) (log (Warn_chunk_exceeds_size 1) st)
       else extract_and_populate fromstring m 0 (length ps + 2) st)
  ∧ (∀ st,
       same_step (iteration fromstring (p1 :: ps ++ pl :: post) 0 st)
                 (iteration fromstring (m :: post) 0 st))
  ∧ observable_outcome (process_excel fromstring (p1 :: ps ++ pl :: post))
    = observable_outcome (process_excel fromstring (m :: post)).
Proof.
  intros Hjoin Hom Hcm Ho Hc Hps Hpl Hcap.
  assert (∀ st,
     iteration fromstring (p1 :: ps ++ pl :: post) 0 st =
       if (MAX_XML_BYTES <? Text.utf8_len m)%N
       then Continue (length ps + 2) (log (Warn_chunk_exceeds_size 1) st)
       else extract_and_populate fromstring m 0 (length ps + 2) st) as Hsplit.
  { intros st. rewrite (iteration_split fromstring p1 pl ps post st) by done.
    cbv zeta. by rewrite Hjoin. }
  split; [exact Hsplit|]. split.
  - intros st. rewrite Hsplit, iteration_single_cell by done.
    destruct (MAX_XML_BYTES <? Text.utf8_len m)%N.
    + simpl. by apply observable_log.
    + pose proof (extract_and_populate_observable fromstring m 0 0 (length ps + 2) 1
                    st st eq_refl) as H.
      destruct (extract_and_populate _ _ _ (length ps + 2) _),
               (extract_and_populate _ _ _ 1 _); try done. simpl. by destruct H as (_ & _ & H).
  - unfold process_excel.
    assert (length (p1 :: ps ++ pl :: post) = S (length (ps ++ pl :: post))) as -> by done.
    assert (length (m :: post) = S (length post)) as -> by done.
    rewrite !scan_loop_step by (simpl; lia).
    rewrite Hsplit, iteration_single_cell by done.
    destruct (MAX_XML_BYTES <? Text.utf8_len m)%N.
    + apply scan_after_chunk. by apply observable_log.
    + pose proof (extract_and_populate_observable fromstring m 0 0 (length ps + 2) 1
                    initial_state initial_state eq_refl) as H.
      destruct (extract_and_populate _ _ _ (length ps + 2) _),
               (extract_and_populate _ _ _ 1 _); try done.
      * destruct H as (-> & -> & H). by apply scan_after_chunk.
      * simpl. by rewrite H.
Qed.

Lemma C4_split_message_witness :
  Text.join "" (sample_first :: sample_middle ++ [sample_last]) = sample_msg ∧
  observable_outcome
    (process_excel Xml.parse (sample_first :: sample_middle ++ sample_last :: ["tail"]))
  = observable_outcome (process_excel Xml.parse (sample_msg :: ["tail"])).
Proof.
  split; [vm_compute; reflexivity|].
  apply (C4_split_message Xml.parse sample_msg sample_first sample_last sample_middle ["tail"]).
  - vm_compute. reflexivity.
  - vm_compute. reflexivity.
  - vm_compute. reflexivity.
  - vm_compute. reflexivity.
  - vm_compute. reflexivity.
  - repeat constructor.
  - vm_compute. reflexivity.
  - vm_compute. lia.
Defined.

(** The claim fails for a cut inside the opening tag: neither cell shows an
    opening indicator, nothing is reassembled or extracted, and no row is
    written, whereas the message in one cell yields two rows. *)
Lemma C4_counterexample :
  Text.join "" sample_cut_in_tag = sample_msg ∧
  observable_outcome (process_excel Xml.parse sample_cut_in_tag)
    = Some (true, observable initial_state) ∧
  (∃ st, process_excel Xml.parse [sample_msg] = Finished st
       ∧ calls (trace st) = [Call_extract_messages sample_msg; Call_populate sample_msg 2]
       ∧ current_row st = 4
       ∧ ws_out st !! (2, 7) = Some "7"
       ∧ ws_out initial_state !! (2, 7) = None) ∧
  observable_outcome (process_excel Xml.parse sample_cut_in_tag)
    ≠ observable_outcome (process_excel Xml.parse [sample_msg]).
Proof.
  split; [vm_compute; reflexivity|]. split; [vm_compute; reflexivity|]. split.
  - eexists. split; [vm_compute; reflexivity|]. repeat split; vm_compute; reflexivity.
  - vm_compute. discriminate.
Qed.

(** * Further properties of the code *)

(** ** The extractor's columns *)

Lemma get_data_length (locator : node -> list string) (root : node) :
  length (get_data locator root) = length (LINE_ITEMS root).
Proof. unfold get_data. by rewrite length_map. Qed.

Lemma per_line_length (root : node) (c : nat) (vs : list string) :
  data root !! c = Some (PerLine vs) → length vs = length (LINE_ITEMS root).
Proof.
  unfold data.
  do 20 (destruct c as [|c];
         [simpl; intros H; try discriminate H; injection H as <-;
          unfold POLINESEQNRS, MMMPRODID, ORDERQTY, SUPPLY_CHAIN_UNIT, SELLINGUNIT,
            PRODUCT_DESCRIPTION, SPECIAL_HANDLING, LINE_INSTRUCTION, EXPORT_MARKS,
            EXPC_SHIP_TYPE_CODE, EXPC_SHIP_DATE, SAP_PO_NUMBER;
          rewrite ?length_map, ?length_replicate, ?get_data_length, ?no_line_items_eq;
          reflexivity|]).
  simpl. discriminate.
Qed.

(** X1. Every per-line column of [data] has exactly one entry per line item,
    so in the write loop the index is always in range and the empty default
    of [cell_value] is never taken. *)
Theorem X1_per_line_columns_aligned (root : node) (c k : nat) (vs : list string) :
  data root !! c = Some (PerLine vs) →
  k < length (LINE_ITEMS root) →
  length vs = length (LINE_ITEMS root) ∧
  ∃ v, vs !! k = Some v ∧ cell_value (PerLine vs) k = v.
Proof.
  intros Hc Hk. pose proof (per_line_length root c vs Hc) as Hlen.
  split; [done|].
  destruct (lookup_lt_is_Some_2 vs k) as [v Hv]; [lia|].
  exists v. split; [done|]. simpl. rewrite Hv.
  by destruct (Nat.ltb_spec k (length vs)); [|lia].
Qed.

Lemma X1_per_line_columns_aligned_witness :
  length ["7"; "A1"] = length (LINE_ITEMS sample_tree) ∧
  ∃ v, ["7"; "A1"] !! 1 = Some v ∧ cell_value (PerLine ["7"; "A1"]) 1 = v.
Proof.
  apply (X1_per_line_columns_aligned sample_tree 6 1 ["7"; "A1"]).
  - vm_compute. reflexivity.
  - vm_compute. lia.
Defined.

Lemma populate_cell (root : node) (sh : sheet) (row k c : nat) :
  k < length (LINE_ITEMS root) → 1 ≤ c ≤ 20 →
  (populate root sh row).1 !! (row + k, c)
    = (λ cv, cell_value cv k) <$> data root !! (c - 1).
Proof.
  intros Hk Hc. rewrite populate_lookup, decide_True by lia.
  by assert (row + k - row = k) as -> by lia.
Qed.

(** X2. The scalar columns (1 to 6, 15 and 17) carry one and the same value
    on every row that a message produces. *)
Theorem X2_scalar_columns_repeat (root : node) (sh : sheet) (row k1 k2 c : nat) :
  k1 < length (LINE_ITEMS root) → k2 < length (LINE_ITEMS root) →
  c ∈ scalar_columns →
  (populate root sh row).1 !! (row + k1, c) = (populate root sh row).1 !! (row + k2, c).
Proof.
  intros H1 H2 Hc. unfold scalar_columns in Hc.
  repeat (apply elem_of_cons in Hc as [->|Hc];
          [rewrite !populate_cell by lia; reflexivity|]).
  by apply elem_of_nil in Hc.
Qed.

Lemma X2_scalar_columns_repeat_witness :
  (populate sample_tree ∅ 2).1 !! (2 + 0, 6) = (populate sample_tree ∅ 2).1 !! (2 + 1, 6).
Proof.
  apply (X2_scalar_columns_repeat sample_tree ∅ 2 0 1 6).
  - vm_compute. lia.
  - vm_compute. lia.
  - unfold scalar_columns. set_solver.
Defined.

(** X3. On every row SUPPLY CHAIN UNIT (column 11) repeats SELLINGUNIT
    (column 10), and LINE INSTRUCTION (14) and EXPORT MARKS (16) are the
    empty text. *)
Theorem X3_duplicate_and_blank_columns (root : node) (sh : sheet) (row k : nat) :
  k < length (LINE_ITEMS root) →
  (populate root sh row).1 !! (row + k, 11) = (populate root sh row).1 !! (row + k, 10)
  ∧ (populate root sh row).1 !! (row + k, 14) = Some ""
  ∧ (populate root sh row).1 !! (row + k, 16) = Some "".
Proof.
  intros Hk. rewrite !populate_cell by lia. split; [reflexivity|].
  change ((λ cv, cell_value cv k) <$> data root !! (14 - 1))
    with (Some (cell_value (PerLine (LINE_INSTRUCTION root)) k)).
  change ((λ cv, cell_value cv k) <$> data root !! (16 - 1))
    with (Some (cell_value (PerLine (EXPORT_MARKS root)) k)).
  assert (∀ n, cell_value (PerLine (replicate n "")) k = "") as Hblank.
  { intros n. unfold cell_value. rewrite length_replicate.
    destruct (Nat.ltb_spec k n); [|done]. by rewrite lookup_replicate_2. }
  unfold LINE_INSTRUCTION, EXPORT_MARKS. by rewrite !Hblank.
Qed.

Lemma X3_duplicate_and_blank_columns_witness :
  (populate sample_tree ∅ 2).1 !! (2 + 1, 11) = (populate sample_tree ∅ 2).1 !! (2 + 1, 10)
  ∧ (populate sample_tree ∅ 2).1 !! (2 + 1, 14) = Some ""
  ∧ (populate sample_tree ∅ 2).1 !! (2 + 1, 16) = Some "".
Proof.
  apply (X3_duplicate_and_blank_columns sample_tree ∅ 2 1). vm_compute. lia.
Defined.

Lemma per_line_cell (root : node) (sh : sheet) (row k c : nat) (vs : list string) :
  k < length (LINE_ITEMS root) → 1 ≤ c ≤ 20 →
  data root !! (c - 1) = Some (PerLine vs) →
  (populate root sh row).1 !! (row + k, c) = vs !! k ∧ is_Some (vs !! k).
Proof.
  intros Hk Hc Hdata. rewrite populate_cell, Hdata by lia.
  pose proof (per_line_length root _ vs Hdata) as Hlen.
  destruct (lookup_lt_is_Some_2 vs k) as [v Hv]; [lia|].
  split; [|by exists v]. simpl. rewrite Hv.
  by destruct (Nat.ltb_spec k (length vs)); [|lia].
Qed.

(** X4. The defaults of three columns, on every row written: ORDER
    INSTRUCTION (17) is [null] or a non-empty text behind the letter C, SAP
    PO NUMBER (20) is never empty, and CUSTPROFCODE (4) is empty or a
    non-empty code behind [STC ]. *)
Theorem X4_defaulted_columns (root : node) (sh : sheet) (row k : nat) :
  k < length (LINE_ITEMS root) →
  (∃ v, (populate root sh row).1 !! (row + k, 17) = Some v
        ∧ (v = "null" ∨ ∃ t, t ≠ "" ∧ v = "C" +:+ t))
  ∧ (∃ v, (populate root sh row).1 !! (row + k, 20) = Some v ∧ v ≠ "")
  ∧ (∃ v, (populate root sh row).1 !! (row + k, 4) = Some v
          ∧ (v = "" ∨ ∃ t, t ≠ "" ∧ v = "STC " +:+ t)).
Proof.
  intros Hk. split; [|split].
  - exists (ORDER_INSTRUCTION root). split; [by rewrite populate_cell by lia|].
    unfold ORDER_INSTRUCTION.
    destruct (String.eqb_spec
      (Text.join ""
         (xpath_text ["purchaseOrder"; "header"; "specialInstructions"; "specialInstruction"]
            (attr_is "type" "AH") root)) "") as [He|Hne]; [by left|].
    right. eexists. by split.
  - destruct (per_line_cell root sh row k 20 (SAP_PO_NUMBER root) Hk) as [Hcell [v Hv]];
      [lia | reflexivity |].
    exists v. split; [by rewrite Hcell|].
    unfold SAP_PO_NUMBER in Hv. rewrite list_lookup_fmap in Hv.
    destruct (get_data _ root !! k) as [x|]; [|done]. simpl in Hv.
    injection Hv as <-. by destruct (String.eqb_spec x "").
  - exists (CUSTPROFCODE root). split; [by rewrite populate_cell by lia|].
    unfold CUSTPROFCODE.
    destruct (String.eqb_spec
      (x1 (xpath_text ["purchaseOrder"; "header"; "customerProfileCode"] any_attrs root)) "")
      as [He|Hne]; [by left|].
    right. eexists. by split.
Qed.

Lemma X4_defaulted_columns_witness :
  (∃ v, (populate sample_tree ∅ 2).1 !! (2 + 0, 17) = Some v
        ∧ (v = "null" ∨ ∃ t, t ≠ "" ∧ v = "C" +:+ t))
  ∧ (∃ v, (populate sample_tree ∅ 2).1 !! (2 + 0, 20) = Some v ∧ v ≠ "")
  ∧ (∃ v, (populate sample_tree ∅ 2).1 !! (2 + 0, 4) = Some v
          ∧ (v = "" ∨ ∃ t, t ≠ "" ∧ v = "STC " +:+ t)).
Proof.
  apply (X4_defaulted_columns sample_tree ∅ 2 0). vm_compute. lia.
Defined.

(** X5. Two extractor calls in a row, as for two sibling messages: the second
    starts where the first stopped, leaves every row of the first as written,
    puts its own rows right behind them, and returns the start row plus both
    line-item counts. *)
Theorem X5_sibling_messages_compose (root1 root2 : node) (sh : sheet) (row : nat) :
  let first := populate root1 sh row in
  let second := populate root2 first.1 first.2 in
  second.2 = row + length (LINE_ITEMS root1) + length (LINE_ITEMS root2)
  ∧ (∀ r c, r < row + length (LINE_ITEMS root1) → second.1 !! (r, c) = first.1 !! (r, c))
  ∧ (∀ k c, k < length (LINE_ITEMS root2) → 1 ≤ c ≤ 20 →
       second.1 !! (row + length (LINE_ITEMS root1) + k, c)
         = (λ cv, cell_value cv k) <$> data root2 !! (c - 1)).
Proof.
  intros first second. unfold second, first. rewrite !populate_row.
  split; [done|]. split.
  - intros r c Hr. rewrite (populate_lookup root2). by rewrite decide_False by lia.
  - intros k c Hk Hc. by apply populate_cell.
Qed.

Lemma X5_sibling_messages_compose_witness :
  (populate sample_tree (populate sample_tree ∅ 2).1 (populate sample_tree ∅ 2).2).2 = 6
  ∧ (populate sample_tree (populate sample_tree ∅ 2).1 (populate sample_tree ∅ 2).2).1
      !! (3, 7) = (populate sample_tree ∅ 2).1 !! (3, 7)
  ∧ (populate sample_tree (populate sample_tree ∅ 2).1 (populate sample_tree ∅ 2).2).1
      !! (2 + 2 + 1, 7) = Some "A1".
Proof.
  destruct (X5_sibling_messages_compose sample_tree sample_tree ∅ 2) as (Hrow & Hkeep & Hnew).
  split; [exact Hrow|]. split.
  - apply Hkeep. vm_compute. lia.
  - apply (Hnew 1 7); vm_compute; lia.
Defined.

(** ** Dates, on every input *)

Lemma digit_val_le (c : ascii) : Text.isdigit_char c = true → Date.digit_val c ≤ 9.
Proof.
  unfold Text.isdigit_char, Text.between, Date.digit_val.
  intros [_ H]%andb_true_iff. apply Nat.leb_le in H. lia.
Qed.

Lemma isdigit_char_not_space (c : ascii) :
  Text.isdigit_char c = true → Text.isspace c = false.
Proof.
  unfold Text.isdigit_char, Text.isspace, Text.between.
  intros [H1 H2]%andb_true_iff. apply Nat.leb_le in H1, H2.
  apply orb_false_iff; split; apply andb_false_iff; right; apply Nat.leb_gt; lia.
Qed.

Lemma year_field_sound (s s1 : string) (y : nat) :
  Date.year_field s = Some (y, s1) →
  y < 100 * 100 ∧ ∃ c rest, s = String c rest ∧ Text.isdigit_char c = true.
Proof.
  unfold Date.year_field.
  destruct s as [|a [|b [|c [|d rest]]]]; try discriminate.
  destruct (Text.isdigit_char a) eqn:Ha; [|discriminate].
  destruct (Text.isdigit_char b) eqn:Hb; [|discriminate].
  destruct (Text.isdigit_char c) eqn:Hc; [|discriminate].
  destruct (Text.isdigit_char d) eqn:Hd; [|discriminate].
  cbv [andb]. intros [= <- <-].
  apply digit_val_le in Ha as Ha', Hb, Hc, Hd.
  split; [lia|]. by exists a, (String b (String c (String d rest))).
Qed.

(** What [strptime] accepts is a calendar date, written in a text that
    starts with a digit. *)
Lemma strptime_sound (s : string) (y m d : nat) :
  Date.strptime s = Some (y, m, d) →
  spec_valid_date y m d ∧ ∃ c rest, s = String c rest ∧ Text.isdigit_char c = true.
Proof.
  unfold Date.strptime, Date.match_format.
  destruct (Date.year_field s) as [[y' s1]|] eqn:Hy; [|discriminate].
  destruct (Date.expect "-" s1) as [s2|]; [|discriminate].
  destruct (Date.month_day_fields s2) as [[[m' d'] s5]|]; [|discriminate].
  destruct s5; [|discriminate].
  destruct (Nat.leb_spec 1 y'); [|discriminate].
  destruct (Nat.leb_spec 1 m'); [|discriminate].
  destruct (Nat.leb_spec m' 12); [|discriminate].
  destruct (Nat.leb_spec 1 d'); [|discriminate].
  destruct (Nat.leb_spec d' (Date.days_in_month y' m')); [|discriminate].
  cbv [andb]. intros [= <- <- <-].
  destruct (year_field_sound _ _ _ Hy) as [Hlt Hhead].
  split; [|done]. unfold spec_valid_date. lia.
Qed.

Lemma rstrip_cons (c : ascii) (s : string) :
  Text.isspace c = false → Text.rstrip (String c s) = String c (Text.rstrip s).
Proof. intros Hc. simpl. rewrite Hc. by destruct (Text.rstrip s). Qed.

(** X6. The header date and the per-line date are computed by two pieces of
    code that differ in their guard, yet they agree on every text: the extra
    test of the per-line path for [None] and for blank text only covers texts
    that [strptime] rejects anyway. *)
Theorem X6_date_paths_agree (s : string) : header_date s = line_date s.
Proof.
  unfold header_date, line_date, Date.reformat.
  destruct (Date.strptime s) as [[[y m] d]|] eqn:Hs.
  - destruct (strptime_sound _ _ _ _ Hs) as (_ & c & rest & -> & Hc).
    pose proof (isdigit_char_not_space c Hc) as Hsp.
    unfold Text.strip. simpl Text.lstrip. rewrite Hsp, rstrip_cons by done.
    cbn [String.eqb].
    destruct (Ascii.eqb_spec c "N") as [->|_]; [discriminate Hc|]. done.
  - simpl. destruct (String.eqb s ""); by destruct (_ || _).
Qed.





(** ** Trimming and sequence numbers *)

Lemma rstrip_idem (s : string) : Text.rstrip (Text.rstrip s) = Text.rstrip s.
Proof.
  induction s as [|c s IH]; [done|]. simpl.
  destruct (Text.rstrip s) as [|c' r] eqn:Hr.
  - destruct (Text.isspace c) eqn:Hc; [done|]. simpl. by rewrite Hc.
  - simpl in IH |- *. destruct (Text.rstrip r) eqn:Hrr.
    + destruct (Text.isspace c'); [discriminate IH|]. by rewrite IH.
    + by rewrite IH.
Qed.

Lemma lstrip_head (s : string) :
  Text.lstrip s = EmptyString ∨
  ∃ c rest, Text.lstrip s = String c rest ∧ Text.isspace c = false.
Proof.
  induction s as [|c s IH]; [by left|]. simpl.
  destruct (Text.isspace c) eqn:Hc; [done|]. right. by exists c, s.
Qed.

(** [strip] is idempotent. *)
Lemma strip_idem (s : string) : Text.strip (Text.strip s) = Text.strip s.
Proof.
  unfold Text.strip. destruct (lstrip_head s) as [->|(c & rest & -> & Hc)]; [done|].
  rewrite rstrip_cons by done. simpl Text.lstrip. rewrite Hc.
  rewrite rstrip_cons, rstrip_idem by done. done.
Qed.

Lemma all_digits_rstrip (s : string) : Text.all_digits s = true → Text.rstrip s = s.
Proof.
  induction s as [|c s IH]; [done|]. simpl. intros [Hc Hs]%andb_true_iff.
  apply isdigit_char_not_space in Hc. rewrite Hc, IH by done. by destruct s.
Qed.

Lemma isdigit_strip (s : string) : Text.isdigit s = true → Text.strip s = s.
Proof.
  destruct s as [|c s]; [done|]. simpl. intros H.
  pose proof H as [Hc Hs]%andb_true_iff. apply isdigit_char_not_space in Hc.
  unfold Text.strip. simpl Text.lstrip. rewrite Hc.
  by apply (all_digits_rstrip (String c s)).
Qed.

Lemma strip_zeros_digits (s : string) :
  Text.isdigit s = true → Text.isdigit (spec_strip_leading_zeros s) = true.
Proof.
  induction s as [|c s IH]; [done|]. intros H. simpl.
  destruct (Ascii.eqb c "0"); [|done]. destruct s as [|c' s']; [done|].
  apply IH. simpl in H |- *. by apply andb_true_iff in H as [_ H].
Qed.

Lemma strip_zeros_idem (s : string) :
  spec_strip_leading_zeros (spec_strip_leading_zeros s) = spec_strip_leading_zeros s.
Proof.
  induction s as [|c s IH]; [done|]. simpl.
  destruct (Ascii.eqb c "0") eqn:Hc.
  - destruct s as [|c' s']; [simpl; by rewrite Hc|]. exact IH.
  - simpl. by rewrite Hc.
Qed.

(** X9. Normalising a sequence number twice gives what normalising it once
    gives: the output of the POLINESEQNR rule is already in the form the rule
    produces. *)
Theorem X9_normalize_seq_idempotent (s : string) :
  normalize_seq (normalize_seq s) = normalize_seq s.
Proof.
  unfold normalize_seq.
  destruct (Text.isdigit (Text.strip s)) eqn:Hd.
  - rewrite py_str_py_int by done.
    pose proof (strip_zeros_digits _ Hd) as Hd'.
    rewrite (isdigit_strip _ Hd'), Hd', py_str_py_int by done.
    apply strip_zeros_idem.
  - by rewrite strip_idem, Hd.
Qed.




(** ** Whole scans *)

Lemma iteration_no_indicator (fromstring : string -> option node)
    (colA : list string) (i : nat) (st : scan_state) :
  no_indicator (default "" (colA !! i)) →
  iteration fromstring colA i st = Continue (i + 1) st.
Proof. intros [Ho Hd]. unfold iteration. by rewrite Ho, Hd. Qed.

Lemma scan_loop_no_indicator (fromstring : string -> option node)
    (colA : list string) (fuel i : nat) (st : scan_state) :
  Forall no_indicator colA → length colA - i ≤ fuel →
  scan_loop fromstring fuel colA i st = Finished st.
Proof.
  intros Hall. revert i st. induction fuel as [|fuel IH]; intros i st Hfuel.
  - apply scan_loop_done. lia.
  - destruct (decide (i < length colA)) as [Hi|Hi]; [|apply scan_loop_done; lia].
    rewrite scan_loop_step by done.
    destruct (lookup_lt_is_Some_2 colA i Hi) as [cell Hcell].
    rewrite iteration_no_indicator.
    + apply IH. lia.
    + rewrite Hcell. simpl. by apply (Forall_lookup_1 _ _ _ _ Hall Hcell).
Qed.

(** X11. A column in which no row shows an opening indicator is scanned to
    its end without a call or a warning: the result is the header row alone,
    with the output cursor on row 2. *)
Theorem X11_no_messages_header_only
    (fromstring : string -> option node) (colA : list string) :
  Forall no_indicator colA →
  process_excel fromstring colA = Finished initial_state.
Proof. intros Hall. apply scan_loop_no_indicator; [done|lia]. Qed.

Lemma X11_no_messages_header_only_witness :
  Forall no_indicator ["PO list"; ""; "<purchaseOrder/>"] ∧
  process_excel Xml.parse ["PO list"; ""; "<purchaseOrder/>"] = Finished initial_state.
Proof.
  assert (Forall no_indicator ["PO list"; ""; "<purchaseOrder/>"]) as H.
  { repeat constructor. }
  split; [exact H|]. exact (X11_no_messages_header_only Xml.parse _ H).
Defined.

Lemma scan_loop_skip_prefix (fromstring : string -> option node)
    (pre suf : list string) (fuel : nat) (st : scan_state) :
  Forall no_indicator pre →
  ∀ d i, i + d = length pre →
    scan_loop fromstring (d + fuel) (pre ++ suf) i st
      = scan_loop fromstring fuel (pre ++ suf) (length pre) st.
Proof.
  intros Hall. induction d as [|d IH]; intros i Hi.
  - by assert (i = length pre) as -> by lia.
  - change (S d + fuel) with (S (d + fuel)).
    rewrite scan_loop_step by (rewrite length_app; lia).
    destruct (lookup_lt_is_Some_2 pre i) as [cell Hcell]; [lia|].
    rewrite iteration_no_indicator.
    + apply IH. lia.
    + rewrite lookup_app_l, Hcell by lia. simpl.
      by apply (Forall_lookup_1 _ _ _ _ Hall Hcell).
Qed.

(** X12. Rows without an opening indicator ahead of the data change nothing
    but the row numbers quoted in warnings: the extractor calls, the
    worksheet and the output cursor are those of the scan without them. *)
Theorem X12_leading_rows_ignored
    (fromstring : string -> option node) (pre suf : list string) :
  Forall no_indicator pre →
  observable_outcome (process_excel fromstring (pre ++ suf))
    = observable_outcome (process_excel fromstring suf).
Proof.
  intros Hall. unfold process_excel. rewrite length_app.
  rewrite (scan_loop_skip_prefix fromstring pre suf (length suf) initial_state Hall
             (length pre) 0) by lia.
  rewrite <- (Nat.add_0_r (length pre)).
  by apply scan_loop_shift.
Qed.

Lemma X12_leading_rows_ignored_witness :
  Forall no_indicator ["Orders"; ""] ∧
  observable_outcome (process_excel Xml.parse (["Orders"; ""] ++ [sample_msg]))
    = observable_outcome (process_excel Xml.parse [sample_msg]).
Proof.
  assert (Forall no_indicator ["Orders"; ""]) as H by (repeat constructor).
  split; [exact H|]. exact (X12_leading_rows_ignored Xml.parse _ [sample_msg] H).
Defined.

(** *** Invariants of the scan

    A property of the scan state that survives a logged warning, a recorded
    call of [_extract_messages] on a text within the byte cap, and an
    extractor call, whether it writes its rows or raises, holds in the state
    in which the scan stops. *)

Section Invariant.

Variable fromstring : string -> option node.
Variable Inv : scan_state → Prop.

Hypothesis Inv_warn : ∀ e st, is_call e = false → Inv st → Inv (log e st).

Hypothesis Inv_extract : ∀ raw_xml st,
  (MAX_XML_BYTES <? Text.utf8_len raw_xml)%N = false →
  Inv st → Inv (log (Call_extract_messages raw_xml) st).

Hypothesis Inv_populate : ∀ msg root st,
  fromstring msg = Some root → Inv st →
  Inv (mk_state (populate root (ws_out st) (current_row st)).2
                (populate root (ws_out st) (current_row st)).1
                (trace st ++ [Call_populate msg (current_row st)])).

Hypothesis Inv_raise : ∀ msg st,
  fromstring msg = None → Inv st → Inv (log (Call_populate msg (current_row st)) st).

Lemma populate_all_inv (messages : list string) (st : scan_state) :
  Inv st → Inv (run_state (populate_all fromstring messages st)).
Proof.
  revert st. induction messages as [|msg rest IH]; intros st Hst; simpl; [done|].
  unfold process_xml_and_populate_xl_sheet.
  destruct (fromstring msg) as [root|] eqn:Hmsg.
  - pose proof (Inv_populate msg root st Hmsg Hst) as H.
    destruct (populate root (ws_out st) (current_row st)) as [ws row]. by apply IH.
  - simpl. by apply Inv_raise.
Qed.

Lemma extract_and_populate_inv (raw_xml : string) (i next : nat) (st : scan_state) :
  (MAX_XML_BYTES <? Text.utf8_len raw_xml)%N = false →
  Inv st → Inv (step_state (extract_and_populate fromstring raw_xml i next st)).
Proof.
  intros Hsize Hst. unfold extract_and_populate.
  pose proof (Inv_extract raw_xml st Hsize Hst) as Hst'.
  destruct (_extract_messages raw_xml) as [messages|].
  - pose proof (populate_all_inv messages _ Hst') as H.
    by destruct (populate_all _ _ _).
  - simpl. by apply Inv_warn.
Qed.

Lemma iteration_inv (colA : list string) (i : nat) (st : scan_state) :
  Inv st → Inv (step_state (iteration fromstring colA i st)).
Proof.
  intros Hst. unfold iteration.
  destruct (_ || _); [|done]. destruct (_ && _).
  - destruct (MAX_XML_BYTES <? _)%N eqn:Hsize; [by apply Inv_warn|].
    by apply extract_and_populate_inv.
  - destruct (scan_forward _ _ _ _) as [[parts j] capped].
    assert (Inv (if capped then log (Warn_chunk_too_large (i + 1)) st else st)) as Hst'.
    { destruct capped; [by apply Inv_warn | done]. }
    destruct (length colA <=? j); [by apply Inv_warn|].
    destruct (MAX_XML_BYTES <? _)%N eqn:Hsize; [by apply Inv_warn|].
    by apply extract_and_populate_inv.
Qed.

Lemma scan_loop_inv (colA : list string) (fuel i : nat) (st st' : scan_state) :
  Inv st → final_state (scan_loop fromstring fuel colA i st) = Some st' → Inv st'.
Proof.
  revert i st. induction fuel as [|fuel IH]; intros i st Hst; simpl.
  - destruct (i <? length colA); [done|]. by intros [= <-].
  - destruct (i <? length colA); [|by intros [= <-]].
    pose proof (iteration_inv colA i st Hst) as H.
    destruct (iteration fromstring colA i st) as [i' st1|st1]; simpl in H.
    + by apply IH.
    + by intros [= <-].
Qed.

End Invariant.

(** X13. No text longer than 8 MiB is ever handed to [_extract_messages]:
    every such call the scan makes, up to the point where it stops, is on a
    text within [MAX_XML_BYTES]. *)
Theorem X13_byte_cap_respected
    (fromstring : string -> option node) (colA : list string) (st' : scan_state) :
  final_state (process_excel fromstring colA) = Some st' →
  Forall within_byte_cap (trace st').
Proof.
  apply (scan_loop_inv fromstring (λ st, Forall within_byte_cap (trace st))).
  - intros e st He Hst. simpl. apply Forall_app. split; [done|].
    apply Forall_singleton. by destruct e.
  - intros raw st Hsize Hst. simpl. apply Forall_app. split; [done|].
    apply Forall_singleton. simpl. by apply N.ltb_ge.
  - intros msg root st _ Hst. simpl. apply Forall_app. split; [done|].
    by apply Forall_singleton.
  - intros msg st _ Hst. simpl. apply Forall_app. split; [done|].
    by apply Forall_singleton.
  - by apply Forall_nil.
Qed.

Lemma X13_byte_cap_respected_witness :
  ∃ st', final_state (process_excel Xml.parse cap_rows_split) = Some st'
       ∧ Forall within_byte_cap (trace st').
Proof.
  eexists. split; [vm_compute; reflexivity|].
  apply (X13_byte_cap_respected Xml.parse cap_rows_split). vm_compute. reflexivity.
Defined.

(** X14. The output is append-only: from any point of a scan on, the output
    cursor never moves back and no cell in a row above it is written again. *)
Theorem X14_output_append_only
    (fromstring : string -> option node) (colA : list string) (fuel i : nat)
    (st st' : scan_state) :
  final_state (scan_loop fromstring fuel colA i st) = Some st' →
  current_row st ≤ current_row st'
  ∧ ∀ r c, r < current_row st → ws_out st' !! (r, c) = ws_out st !! (r, c).
Proof.
  apply (scan_loop_inv fromstring
           (λ s, current_row st ≤ current_row s
                 ∧ ∀ r c, r < current_row st → ws_out s !! (r, c) = ws_out st !! (r, c))).
  - intros e s _ Hs. exact Hs.
  - intros raw s _ Hs. exact Hs.
  - intros msg root s _ [Hrow Hkeep]. simpl. rewrite populate_row. split; [lia|].
    intros r c Hr. rewrite populate_lookup, decide_False by lia. by apply Hkeep.
  - intros msg s _ Hs. exact Hs.
  - done.
Qed.

Lemma X14_output_append_only_witness :
  ∃ st', final_state (scan_loop Xml.parse 2 [sample_msg; sample_msg] 1
                        (mk_state 4 (populate sample_tree ∅ 2).1 [])) = Some st'
       ∧ 4 ≤ current_row st'
       ∧ ∀ r c, r < 4 → ws_out st' !! (r, c) = (populate sample_tree ∅ 2).1 !! (r, c).
Proof.
  eexists. split; [vm_compute; reflexivity|].
  apply (X14_output_append_only Xml.parse [sample_msg; sample_msg] 2 1
           (mk_state 4 (populate sample_tree ∅ 2).1 [])).
  vm_compute. reflexivity.
Defined.

Lemma header_cell (r c : nat) :
  ws_out initial_state !! (r, c) =
    if decide (r = 1 ∧ 1 ≤ c ≤ 20) then headers !! (c - 1) else None.
Proof.
  unfold initial_state. cbn [ws_out]. rewrite write_cells_lookup, length_map.
  change (length headers) with 20.
  destruct (decide (r = 1 ∧ 0 < c ≤ 0 + 20)) as [H|H].
  - rewrite decide_True by lia. rewrite list_lookup_fmap.
    assert (c - 0 - 1 = c - 1) as -> by lia. by destruct (headers !! (c - 1)).
  - rewrite decide_False by lia. done.
Qed.

Lemma filled_block_populate (root : node) (sh : sheet) (row : nat) :
  1 ≤ row → filled_block sh row →
  filled_block (populate root sh row).1 (row + length (LINE_ITEMS root)).
Proof.
  intros Hrow Hblock r c. rewrite populate_lookup.
  destruct (decide (row ≤ r < row + length (LINE_ITEMS root) ∧ 1 ≤ c ≤ 20)) as [H|H].
  - split; [lia|]. intros _. apply fmap_is_Some, lookup_lt_is_Some.
    rewrite data_length. lia.
  - rewrite (Hblock r c). lia.
Qed.

(** X15. Wherever a scan stops, the worksheet is one solid block: row 1 holds
    the twenty column names, and the filled cells are exactly those of rows 1
    to [current_row - 1] in columns 1 to 20, with no gap and nothing
    outside. *)
Theorem X15_sheet_is_a_solid_block
    (fromstring : string -> option node) (colA : list string) (st' : scan_state) :
  final_state (process_excel fromstring colA) = Some st' →
  2 ≤ current_row st'
  ∧ filled_block (ws_out st') (current_row st')
  ∧ ∀ c, 1 ≤ c ≤ 20 → ws_out st' !! (1, c) = headers !! (c - 1).
Proof.
  apply (scan_loop_inv fromstring
           (λ s, 2 ≤ current_row s
                 ∧ filled_block (ws_out s) (current_row s)
                 ∧ ∀ c, 1 ≤ c ≤ 20 → ws_out s !! (1, c) = headers !! (c - 1))).
  - intros e s _ Hs. exact Hs.
  - intros raw s _ Hs. exact Hs.
  - intros msg root s _ (Hrow & Hblock & Hhead). simpl. rewrite populate_row.
    split; [lia|]. split; [apply filled_block_populate; [lia|done]|].
    intros c Hc. rewrite populate_lookup, decide_False by lia. by apply Hhead.
  - intros msg s _ Hs. exact Hs.
  - split; [simpl; lia|]. split.
    + intros r c. rewrite header_cell. change (current_row initial_state) with 2.
      destruct (decide (r = 1 ∧ 1 ≤ c ≤ 20)) as [H|H].
      * split; [lia|]. intros _. apply lookup_lt_is_Some.
        change (length headers) with 20. lia.
      * split; [by intros [? ?]|lia].
    + intros c Hc. rewrite header_cell. by rewrite decide_True by lia.
Qed.

Lemma X15_sheet_is_a_solid_block_witness :
  ∃ st', final_state (process_excel Xml.parse [sample_msg]) = Some st'
       ∧ 2 ≤ current_row st'
       ∧ filled_block (ws_out st') (current_row st')
       ∧ ∀ c, 1 ≤ c ≤ 20 → ws_out st' !! (1, c) = headers !! (c - 1).
Proof.
  eexists. split; [vm_compute; reflexivity|].
  apply (X15_sheet_is_a_solid_block Xml.parse [sample_msg]). vm_compute. reflexivity.
Defined.





Lemma scan_forward_no_close (colA : list string) :
  Forall (λ cell, has_close_tag cell = false) colA →
  ∀ fuel parts j,
    length parts + (length colA - j) ≤ MAX_PARTS →
    length colA - j ≤ fuel →
    (scan_forward fuel colA parts j).2 = false
    ∧ length colA ≤ (scan_forward fuel colA parts j).1.2.
Proof.
  intros Hall. induction fuel as [|fuel IH]; intros parts j Hcap Hfuel; simpl.
  - split; [done|lia].
  - destruct (Nat.ltb_spec j (length colA)) as [Hj|Hj]; [|simpl; split; [done|lia]].
    destruct (lookup_lt_is_Some_2 colA j Hj) as [cell Hcell].
    rewrite Hcell. simpl. rewrite (Forall_lookup_1 _ _ _ _ Hall Hcell). simpl.
    rewrite length_app. simpl.
    destruct (Nat.ltb_spec MAX_PARTS (length parts + 1)); [lia|].
    apply IH; [rewrite length_app; simpl; lia | lia].
Qed.

Lemma iteration_no_close (fromstring : string -> option node)
    (colA : list string) (i : nat) (st : scan_state) :
  Forall (λ cell, has_close_tag cell = false) colA →
  length colA ≤ MAX_PARTS → i < length colA →
  ∃ st', iteration fromstring colA i st = Continue (i + 1) st'
       ∧ observable st' = observable st.
Proof.
  intros Hall Hlen Hi. unfold iteration.
  destruct (lookup_lt_is_Some_2 colA i Hi) as [cell Hcell]. rewrite Hcell. simpl.
  rewrite (Forall_lookup_1 _ _ _ _ Hall Hcell), andb_false_r.
  destruct (has_open_tag cell || has_xml_decl cell); [|by exists st].
  destruct (scan_forward_no_close colA Hall (length colA - (i + 1)) [cell] (i + 1))
    as [Hcapped Hj]; [simpl; lia | lia |].
  destruct (scan_forward _ _ _ _) as [[parts j] capped]. simpl in Hcapped, Hj.
  subst capped. destruct (Nat.leb_spec (length colA) j); [|lia].
  eexists. split; [reflexivity|].
  unfold observable, log. cbn [current_row ws_out trace].
  rewrite calls_app. simpl. by rewrite app_nil_r.
Qed.

Lemma scan_loop_no_close (fromstring : string -> option node)
    (colA : list string) (fuel i : nat) (st : scan_state) :
  Forall (λ cell, has_close_tag cell = false) colA →
  length colA ≤ MAX_PARTS → length colA - i ≤ fuel →
  ∃ st', scan_loop fromstring fuel colA i st = Finished st'
       ∧ observable st' = observable st.
Proof.
  intros Hall Hlen. revert i st. induction fuel as [|fuel IH]; intros i st Hfuel.
  - exists st. split; [apply scan_loop_done; lia | done].
  - destruct (decide (i < length colA)) as [Hi|Hi];
      [|exists st; split; [apply scan_loop_done; lia | done]].
    rewrite scan_loop_step by done.
    destruct (iteration_no_close fromstring colA i st Hall Hlen Hi) as (st1 & -> & Hobs).
    destruct (IH (i + 1) st1) as (st' & Hloop & Hobs'); [lia|].
    exists st'. split; [done|]. congruence.
Qed.

(** X17. A column of at most 1000 rows in which no row holds a closing tag
    yields nothing: every opening indicator ends in the incomplete-chunk
    skip, no call is made, and the scan finishes with the header row alone
    and the output cursor on row 2. *)
Theorem X17_no_closing_tag_no_output
    (fromstring : string -> option node) (colA : list string) :
  Forall (λ cell, has_close_tag cell = false) colA →
  length colA ≤ MAX_PARTS →
  ∃ st', process_excel fromstring colA = Finished st'
       ∧ observable st' = observable initial_state.
Proof. intros Hall Hlen. apply scan_loop_no_close; [done | done | lia]. Qed.

Lemma X17_no_closing_tag_no_output_witness :
  ∃ st', process_excel Xml.parse [sample_body; "x"; "<?xml version='1.0'?>"] = Finished st'
       ∧ observable st' = observable initial_state.
Proof.
  apply (X17_no_closing_tag_no_output Xml.parse [sample_body; "x"; "<?xml version='1.0'?>"]).
  - repeat constructor.
  - vm_compute. lia.
Defined.

(** ** Message extraction *)















(** ** The routes *)

Lemma append_length (a b : string) :
  String.length (a +:+ b) = String.length a + String.length b.
Proof. induction a as [|c a IH]; simpl; [done|]. by rewrite IH. Qed.

Lemma last_dot_tail_split (n t : string) :
  Path.last_dot_tail n = Some t → ∃ stem, n = stem +:+ t.
Proof.
  revert t. induction n as [|c n IH]; intros t; simpl; [done|].
  destruct (Path.last_dot_tail n) as [t'|].
  - intros [= <-]. destruct (IH t' eq_refl) as [stem ->]. by exists (String c stem).
  - destruct (Ascii.eqb c "."); [|done]. intros [= <-]. by exists EmptyString.
Qed.

Lemma last_dot_tail_app (stem rest : string) :
  Path.last_dot_tail rest = None →
  Path.last_dot_tail (stem +:+ String "." rest) = Some (String "." rest).
Proof.
  intros Hrest. induction stem as [|c stem IH]; simpl.
  - by rewrite Hrest.
  - by rewrite IH.
Qed.

Lemma lower_dot (c : ascii) : Text.lower c = "."%char → c = "."%char.
Proof.
  destruct c as [[] [] [] [] [] [] [] []]; vm_compute; intros H; congruence.
Qed.

(** A text that reads [.xlsx] in lower case is a dot and four more
    characters, none of them a dot. *)
Lemma xlsx_shape (ext : string) :
  lower_str ext = ".xlsx" →
  ∃ rest, ext = String "." rest ∧ String.length rest = 4
          ∧ Path.last_dot_tail rest = None.
Proof.
  destruct ext as [|c0 [|c1 [|c2 [|c3 [|c4 [|c5 ext]]]]]]; try discriminate.
  simpl. intros [= H0 H1 H2 H3 H4]. apply lower_dot in H0 as ->.
  eexists. split; [reflexivity|]. split; [reflexivity|]. simpl.
  destruct (Ascii.eqb_spec c4 ".") as [->|_]; [discriminate H4|].
  destruct (Ascii.eqb_spec c3 ".") as [->|_]; [discriminate H3|].
  destruct (Ascii.eqb_spec c2 ".") as [->|_]; [discriminate H2|].
  destruct (Ascii.eqb_spec c1 ".") as [->|_]; [discriminate H1|]. done.
Qed.

(** X19. [_is_allowed] accepts a file name exactly when its last path
    component is a non-empty stem followed by [.xlsx] in any mix of upper and
    lower case; a bare [.xlsx], a trailing dot or a trailing [.xlsx.bak] is
    refused. *)
Theorem X19_is_allowed_exactly_xlsx (filename : string) :
  _is_allowed filename = true ↔
  ∃ stem ext, Path.name filename = stem +:+ ext ∧ stem ≠ EmptyString
              ∧ lower_str ext = ".xlsx".
Proof.
  unfold _is_allowed, ALLOWED_EXTENSIONS, Path.suffix. cbn [existsb].
  rewrite orb_false_r. split.
  - intros H%String.eqb_eq.
    destruct (Path.last_dot_tail (Path.name filename)) as [t|] eqn:Ht; [|discriminate H].
    destruct (last_dot_tail_split _ _ Ht) as [stem Hn].
    destruct (Nat.ltb_spec 0 (String.length (Path.name filename) - String.length t))
      as [Hi|Hi]; [|discriminate H].
    destruct (_ <? _); [|discriminate H]. cbn [andb] in H.
    exists stem, t. split; [done|]. split; [|done].
    intros ->. rewrite Hn, append_length in Hi. simpl in Hi. lia.
  - intros (stem & ext & Hn & Hstem & Hext).
    destruct (xlsx_shape ext Hext) as (rest & -> & Hlen & Hrest).
    rewrite Hn, last_dot_tail_app, !append_length by done.
    cbn [String.length]. rewrite Hlen.
    assert (0 < String.length stem) by (destruct stem; [done | simpl; lia]).
    destruct (Nat.ltb_spec 0 (String.length stem + 5 - 5)); [|lia].
    destruct (Nat.ltb_spec (String.length stem + 5 - 5) (String.length stem + 5 - 1)); [|lia].
    cbn [andb]. by apply String.eqb_eq.
Qed.

Lemma split_slash_nonempty (s : string) : Path.split_slash s ≠ [].
Proof.
  induction s as [|c s IH]; cbn [Path.split_slash]; [done|].
  destruct (Ascii.eqb c "/"); [done|]. by destruct (Path.split_slash s).
Qed.

Lemma split_slash_app (a b : string) :
  Path.split_slash (a +:+ String "/" b) = Path.split_slash a ++ Path.split_slash b.
Proof.
  induction a as [|c a IH]; [done|].
  change (String c a +:+ String "/" b) with (String c (a +:+ String "/" b)).
  cbn [Path.split_slash]. rewrite IH.
  destruct (Ascii.eqb c "/"); [done|].
  pose proof (split_slash_nonempty a). by destruct (Path.split_slash a).
Qed.

Lemma split_slash_no_slash (s : string) :
  Text.contains "/" s = false → Path.split_slash s = [s].
Proof.
  induction s as [|c s IH]; [done|]. cbn [Text.contains Text.starts_with Path.split_slash].
  intros [H1 H2]%orb_false_iff. rewrite andb_true_r in H1.
  rewrite Ascii.eqb_sym, H1, IH by done. done.
Qed.

(** The name of a file placed in a directory, when the file name has no
    slash and is neither empty nor a single dot. *)
Lemma name_in_dir (dir file : string) :
  Text.contains "/" file = false → file ≠ EmptyString → file ≠ "." →
  Path.name (dir +:+ String "/" file) = file.
Proof.
  intros Hslash Hne Hdot. unfold Path.name.
  rewrite split_slash_app, (split_slash_no_slash file), List.filter_app by done.
  cbn [List.filter]. destruct (String.eqb_spec file ""); [done|].
  destruct (String.eqb_spec file "."); [done|]. cbn [negb andb].
  apply List.last_last.
Qed.

Lemma contains_slash_processed (n : string) :
  Text.contains "/" n = false → Text.contains "/" ("processed_" +:+ n) = false.
Proof. intros H. simpl. exact H. Qed.

(** X20. A download token works once.  For a token in the cache [download]
    sends the file registered under it and removes the token, so that asking
    again gives 404, while every other token stays as it was; for a token not
    in the cache it gives 404 and leaves the cache alone. *)
Theorem X20_download_is_one_shot (token : string) (PROCESS_CACHE : cache) :
  match PROCESS_CACHE !! token with
  | None => download token PROCESS_CACHE = (Not_found, PROCESS_CACHE)
  | Some (output_path, _) =>
      (download token PROCESS_CACHE).1 = Send_file output_path (Path.name output_path)
      ∧ (download token (download token PROCESS_CACHE).2).1 = Not_found
      ∧ ∀ other, other ≠ token →
          (download token PROCESS_CACHE).2 !! other = PROCESS_CACHE !! other
  end.
Proof.
  destruct (PROCESS_CACHE !! token) as [[output_path tmp_dir]|] eqn:Ht.
  - assert (download token PROCESS_CACHE
            = (Send_file output_path (Path.name output_path), delete token PROCESS_CACHE))
      as -> by (unfold download; by rewrite Ht).
    cbn [fst snd]. split; [done|]. split.
    + unfold download. by rewrite lookup_delete_eq.
    + intros other Hne. by rewrite lookup_delete_ne.
  - unfold download. by rewrite Ht.
Qed.

Lemma X20_download_is_one_shot_witness :
  (download "t1" {[ "t1" := ("/tmp/d/processed_a.xlsx", "/tmp/d");
                    "t2" := ("/tmp/e/processed_b.xlsx", "/tmp/e") ]}).1
    = Send_file "/tmp/d/processed_a.xlsx" "processed_a.xlsx"
  ∧ "t2" ≠ "t1"
  ∧ (download "t1" {[ "t1" := ("/tmp/d/processed_a.xlsx", "/tmp/d");
                      "t2" := ("/tmp/e/processed_b.xlsx", "/tmp/e") ]}).2 !! "t2"
      = Some ("/tmp/e/processed_b.xlsx", "/tmp/e").
Proof.
  pose proof (X20_download_is_one_shot "t1"
                {[ "t1" := ("/tmp/d/processed_a.xlsx", "/tmp/d");
                   "t2" := ("/tmp/e/processed_b.xlsx", "/tmp/e") ]}) as H.
  assert ("t2" ≠ "t1") as Hne by discriminate.
  split; [vm_compute; reflexivity|]. split; [exact Hne|].
  change (({[ "t1" := ("/tmp/d/processed_a.xlsx", "/tmp/d");
              "t2" := ("/tmp/e/processed_b.xlsx", "/tmp/e") ]} : cache) !! "t1")
    with (Some ("/tmp/d/processed_a.xlsx", "/tmp/d")) in H.
  destruct H as (_ & _ & H). rewrite (H "t2" Hne). vm_compute. reflexivity.
Defined.

Lemma X19_is_allowed_exactly_xlsx_witness :
  (∃ stem ext, Path.name "in/Orders.XLSX" = stem +:+ ext ∧ stem ≠ EmptyString
               ∧ lower_str ext = ".xlsx")
  ∧ _is_allowed "in/Orders.XLSX" = true.
Proof.
  assert (∃ stem ext, Path.name "in/Orders.XLSX" = stem +:+ ext ∧ stem ≠ EmptyString
                      ∧ lower_str ext = ".xlsx") as H.
  { exists "Orders", ".XLSX". split; [vm_compute; reflexivity|]. split; [discriminate|].
    vm_compute. reflexivity. }
  split; [exact H|]. exact (proj2 (X19_is_allowed_exactly_xlsx "in/Orders.XLSX") H).
Defined.

(** X21. Upload and download fit together.  An accepted [.xlsx] upload that
    is saved, loaded and scanned to the end is answered with 200 and the name
    [processed_<name>], and registers the token; a download with that token
    then sends the file [<tmp_dir>/processed_<name>] under that same name and
    leaves the cache as it was before the upload.  Here [<name>] is the
    secured file name, which holds no slash, and the token is fresh. *)
Theorem X21_upload_then_download
    (fromstring : string -> option node) (secure_filename : string -> string)
    (files : gmap string upload) (f : upload) (colA : list string) (st : scan_state)
    (tmp_dir token : string) (PROCESS_CACHE : cache) :
  files !! "file" = Some f →
  filename f ≠ EmptyString →
  _is_allowed (filename f) = true →
  saves f = true →
  column_a f = Some colA →
  process_excel fromstring colA = Finished st →
  Text.contains "/" (secure_filename (filename f)) = false →
  PROCESS_CACHE !! token = None →
  let name := "processed_" +:+ secure_filename (filename f) in
  let output_path := tmp_dir +:+ "/" +:+ name in
  process_route fromstring secure_filename files tmp_dir token PROCESS_CACHE
    = (Json_ok token name, <[token := (output_path, tmp_dir)]> PROCESS_CACHE)
  ∧ download token (<[token := (output_path, tmp_dir)]> PROCESS_CACHE)
    = (Send_file output_path name, PROCESS_CACHE).
Proof.
  intros Hfile Hname Hallowed Hsaves Hcol Hscan Hslash Hfresh name output_path.
  assert (Path.name output_path = name) as Hout.
  { apply name_in_dir; [by apply contains_slash_processed | done | done]. }
  split.
  - unfold process_route. rewrite Hfile, Hallowed, Hsaves, Hcol, Hscan.
    destruct (String.eqb_spec (filename f) ""); [done|]. cbn [negb].
    fold name. fold output_path. by rewrite Hout.
  - unfold download. rewrite lookup_insert_eq, Hout.
    by rewrite delete_insert_id.
Qed.

Lemma X21_upload_then_download_witness :
  ∃ st,
    process_excel Xml.parse [sample_msg] = Finished st
    ∧ process_route Xml.parse (λ s, s)
        {[ "file" := mk_upload "orders.xlsx" true (Some [sample_msg]) ]} "/tmp/d" "t1" ∅
      = (Json_ok "t1" "processed_orders.xlsx",
         {[ "t1" := ("/tmp/d/processed_orders.xlsx", "/tmp/d") ]})
    ∧ download "t1" {[ "t1" := ("/tmp/d/processed_orders.xlsx", "/tmp/d") ]}
      = (Send_file "/tmp/d/processed_orders.xlsx" "processed_orders.xlsx", ∅).
Proof.
  eexists. split; [vm_compute; reflexivity|].
  refine (X21_upload_then_download Xml.parse (λ s, s)
            {[ "file" := mk_upload "orders.xlsx" true (Some [sample_msg]) ]}
            (mk_upload "orders.xlsx" true (Some [sample_msg])) [sample_msg] _
            "/tmp/d" "t1" ∅ _ _ _ _ _ _ _ _).
  - reflexivity.
  - discriminate.
  - vm_compute. reflexivity.
  - reflexivity.
  - reflexivity.
  - vm_compute. reflexivity.
  - vm_compute. reflexivity.
  - reflexivity.
Defined.

(** X22. [process_route] registers a download only for an upload named
    [*.xlsx] that was saved, loaded and scanned to the end; every other
    request is answered with 400 or 500 and leaves the cache untouched.  In
    particular a scan that the extractor aborts ends in 500 with nothing
    registered. *)
Theorem X22_only_finished_scans_register
    (fromstring : string -> option node) (secure_filename : string -> string)
    (files : gmap string upload) (tmp_dir token : string) (PROCESS_CACHE : cache) :
  match process_route fromstring secure_filename files tmp_dir token PROCESS_CACHE with
  | (Json_ok t _, cache') =>
      t = token
      ∧ ∃ f colA st,
          files !! "file" = Some f
          ∧ filename f ≠ EmptyString
          ∧ _is_allowed (filename f) = true
          ∧ saves f = true
          ∧ column_a f = Some colA
          ∧ process_excel fromstring colA = Finished st
          ∧ cache' = <[token := (tmp_dir +:+ "/" +:+ "processed_"
                                   +:+ secure_filename (filename f), tmp_dir)]> PROCESS_CACHE
  | (Json_error status _, cache') =>
      (status = 400 ∨ status = 500) ∧ cache' = PROCESS_CACHE
  | _ => False
  end.
Proof.
  unfold process_route.
  destruct (files !! "file") as [f|] eqn:Hfile; [|by auto].
  destruct (String.eqb_spec (filename f) "") as [|Hname]; [by auto|].
  destruct (_is_allowed (filename f)) eqn:Hallowed; cbn [negb]; [|by auto].
  destruct (saves f) eqn:Hsaves; cbn [negb]; [|by auto].
  destruct (column_a f) as [colA|] eqn:Hcol; [|by auto].
  destruct (process_excel fromstring colA) as [st|st|] eqn:Hscan; [|by auto..].
  split; [done|]. by exists f, colA, st.
Qed.

(** ** More on the extractor *)

Lemma get_data_cell (locator : node → list string) (root li : node) (k : nat) :
  LINE_ITEMS root !! k = Some li →
  cell_value (PerLine (get_data locator root)) k = Text.join " " (locator li).
Proof.
  intros Hli. unfold cell_value. rewrite get_data_length.
  pose proof (lookup_lt_Some _ _ _ Hli) as Hk.
  destruct (Nat.ltb_spec k (length (LINE_ITEMS root))); [|lia].
  unfold get_data. by rewrite list_lookup_fmap, Hli.
Qed.

(** X23. Per-line columns are aligned with the line items by position: row
    [start_row + k] holds, in columns 8, 9, 10, 12, 13 and 18, the values
    queried from the [k]-th line item in document order, the results of each
    query joined with a blank. *)
Theorem X23_per_line_columns_by_position
    (root : node) (sh : sheet) (row k : nat) (li : node) :
  LINE_ITEMS root !! k = Some li →
  (populate root sh row).1 !! (row + k, 8)
    = Some (Text.join " " (rel_text "productIdentifier" li))
  ∧ (populate root sh row).1 !! (row + k, 9)
    = Some (Text.join " " (rel_text "orderQuantity" li))
  ∧ (populate root sh row).1 !! (row + k, 10)
    = Some (Text.join " " (rel_text "sellingUnit" li))
  ∧ (populate root sh row).1 !! (row + k, 12)
    = Some (Text.join " "
              (rel_detail_text "lineItemDetails" "lineItemDetail" "purchaseritemdescription" li))
  ∧ (populate root sh row).1 !! (row + k, 13)
    = Some (Text.join " "
              (rel_detail_text "lineItemDetails" "lineItemDetail" "specialhandlingcode" li))
  ∧ (populate root sh row).1 !! (row + k, 18)
    = Some (Text.join " " (rel_attr "requestedShipmentDate" "type" li)).
Proof.
  intros Hli. pose proof (lookup_lt_Some _ _ _ Hli) as Hk.
  rewrite !populate_cell by lia.
  repeat split;
    match goal with
    | |- _ <$> data root !! ?c = Some (Text.join " " (?loc li)) =>
        change (Some (cell_value (PerLine (get_data loc root)) k)
                = Some (Text.join " " (loc li)))
    end; f_equal; by apply get_data_cell.
Qed.

Lemma X23_per_line_columns_by_position_witness :
  (populate sample_tree ∅ 2).1 !! (2 + 1, 9) = Some "5".
Proof.
  assert (LINE_ITEMS sample_tree !! 1
          = Some (Elem "lineItem" [("sequenceNumber", " A1 ")]
                    [Elem "orderQuantity" [] [Text "5"]])) as H by reflexivity.
  exact (proj1 (proj2 (X23_per_line_columns_by_position sample_tree ∅ 2 1 _ H))).
Defined.

Lemma node_induction (P : node → Prop) :
  (∀ s, P (Text s)) →
  (∀ tag attrs kids, Forall P kids → P (Elem tag attrs kids)) →
  ∀ n, P n.
Proof.
  intros Htext Helem. fix IH 1. intros [s|tag attrs kids]; [apply Htext|].
  apply Helem. induction kids as [|k kids IHkids]; constructor; [apply IH | exact IHkids].
Qed.

Lemma flat_map_nil {A B : Type} (f : A → list B) (l : list A) :
  Forall (λ x, f x = []) l → flat_map f l = [].
Proof. induction 1 as [|x l Hx _ IH]; simpl; [done|]. by rewrite Hx, IH. Qed.

(** A query whose first step names a tag that the tree does not hold finds
    nothing. *)
Lemma xpath_walk_absent {A : Type} (at_hit at_kid : node → list A)
    (pred : list (string * string) → bool) (p : string) (rest : list string) (n : node) :
  mentions p n = false → xpath_walk at_hit at_kid pred (p :: rest) n = [].
Proof.
  induction n as [s|tag attrs kids IH] using node_induction; [done|].
  cbn [mentions]. intros [Htag Hkids]%orb_false_iff.
  assert (flat_map (xpath_walk at_hit at_kid pred (p :: rest)) kids = []) as Hflat.
  { apply flat_map_nil. rewrite Forall_forall in IH. apply Forall_forall.
    intros k Hk. apply IH; [done|].
    destruct (mentions p k) eqn:Hm; [|done].
    assert (existsb (mentions p) kids = true) as Hex
      by (apply existsb_exists; exists k; split; [by apply list_elem_of_In|done]).
    congruence. }
  cbn [xpath_walk]. rewrite Htag. destruct rest; exact Hflat.
Qed.

(** X24. A message whose document holds no [purchaseOrder] element has no
    line items: the extractor writes nothing, returns the start row, and
    raises nothing. *)
Theorem X24_no_purchase_order_no_rows (root : node) (sh : sheet) (row : nat) :
  mentions "purchaseOrder" root = false →
  LINE_ITEMS root = [] ∧ populate root sh row = (sh, row).
Proof.
  intros Habsent.
  assert (LINE_ITEMS root = []) as Hitems by (by apply xpath_walk_absent).
  split; [done|]. unfold populate. by rewrite no_line_items_eq, Hitems.
Qed.

Lemma X24_no_purchase_order_no_rows_witness :
  LINE_ITEMS (Elem "intercompanyMessage" [] [Elem "lineItems" [] [Elem "lineItem" [] []]]) = []
  ∧ populate (Elem "intercompanyMessage" [] [Elem "lineItems" [] [Elem "lineItem" [] []]])
      ∅ 2 = (∅, 2).
Proof.
  apply (X24_no_purchase_order_no_rows
           (Elem "intercompanyMessage" [] [Elem "lineItems" [] [Elem "lineItem" [] []]]) ∅ 2).
  vm_compute. reflexivity.
Defined.
